(** * RehabAI plan store: a model of [backend/database.py]

    The module keeps generated rehabilitation plans in one SQLite table,
    [rehab_plans], through SQLAlchemy sessions.  This development embeds
    its five functions ([init_database], [save_plan], [get_all_plans],
    [get_plan_by_id], [get_stats]) as programs of a small state and
    exception monad, together with the parts of the libraries they call:

    - the [json.dumps] encoder, and the [json.loads] decoder the readers
      of [plan_json] use, both on JSON text;
    - the SQLAlchemy session ([add], [commit], [refresh], [rollback],
      [close]) over a transactional table;
    - SQLite's rowid allocation for an [INTEGER PRIMARY KEY] column and
      its [count], [GROUP BY] and [avg] aggregates.

    The file has four parts: the model, the vocabulary of the
    statements, the properties with their proofs, and further properties
    of the module's functions.

    Conventions.  A [str] inside a plan is the list of its code points;
    a [str] elsewhere (a column value, a value of [patient_info], JSON
    text) is a Rocq [string], the bytes of its UTF-8 text.  A Python
    [int] is a [Z].  Python floats are not part of the value model, and
    the decoder has no result for the JSON numbers that stand for them;
    the result of [avg], a double in SQLite, is kept as the exact
    rational it rounds.  Every exception the
    model raises is an instance of Python's [Exception], so
    [except Exception] catches each of them.  The storage failures, the
    clock and SQLite's random source are inputs of each call ([Env]). *)

From Stdlib Require Import ZArith QArith Qcanon Ascii String List Lia Bool Sorted.
From Stdlib Require Import Decimal DecimalPos DecimalZ DecimalFacts.
From stdpp Require Import base option list gmap strings.

Local Open Scope Z_scope.

(** ** Exceptions and the monad of the module's functions *)

Inductive PyExn : Type :=
| TypeError          (* json.dumps: object or key that JSON cannot encode *)
| ValueError
| OverflowError      (* sqlite3: Python int too large for SQLite INTEGER *)
| OperationalError   (* storage unavailable, locked, disk full, ... *)
| IntegrityError
| InvalidRequestError. (* refresh of an instance whose row is gone *)

Inductive Outcome (A : Type) : Type :=
| Return (a : A)
| Raise (e : PyExn).
Arguments Return {A} a.
Arguments Raise {A} e.

Module PyM.

(** A computation reads and updates a state [S] and either returns or
    raises. *)
Definition M (S A : Type) : Type := S -> Outcome A * S.

Definition ret {S A} (a : A) : M S A := fun s => (Return a, s).

Definition raise {S A} (e : PyExn) : M S A := fun s => (Raise e, s).

Definition bind {S A B} (m : M S A) (k : A -> M S B) : M S B :=
  fun s =>
    match m s with
    | (Return a, s1) => k a s1
    | (Raise e, s1) => (Raise e, s1)
    end.

Definition get {S} : M S S := fun s => (Return s, s).

Definition modify {S} (f : S -> S) : M S unit := fun s => (Return tt, f s).

(** Lift a pure outcome (a library call that does not touch the state). *)
Definition lift {S A} (o : Outcome A) : M S A := fun s => (o, s).

(** [try: body  except Exception as e: handler e  finally: fin].
    The [finally] block runs on every exit path; an exception it raises
    replaces the pending result. *)
Definition try_except_finally {S A}
    (body : M S A) (handler : PyExn -> M S A) (fin : M S unit) : M S A :=
  fun s =>
    let '(o, s1) :=
      match body s with
      | (Return a, s1) => (Return a, s1)
      | (Raise e, s1) => handler e s1
      end in
    match fin s1 with
    | (Return _, s2) => (o, s2)
    | (Raise e', s2) => (Raise e', s2)
    end.

(** [try: body  finally: fin]. *)
Definition try_finally {S A} (body : M S A) (fin : M S unit) : M S A :=
  fun s =>
    let '(o, s1) := body s in
    match fin s1 with
    | (Return _, s2) => (o, s2)
    | (Raise e', s2) => (Raise e', s2)
    end.

End PyM.

#[export] Instance PyM_ret {S} : MRet (PyM.M S) := fun A => @PyM.ret S A.
#[export] Instance PyM_bind {S} : MBind (PyM.M S) :=
  fun A B k m => @PyM.bind S A B m k.

(** ** Python values and the JSON encoder ([json.dumps]) *)

Module Json.

(** JSON text is a sequence of characters. *)
Definition text : Type := list ascii.

(** A [str] inside a plan is the sequence of its code points. *)
Definition str : Type := list N.

(** The [str] of an ASCII literal. *)
Definition ustr (s : string) : str :=
  map N_of_ascii (list_ascii_of_string s).

(** The Python values a plan is made of.  [PyBytes] stands for the
    objects the encoder has no rule for. *)
#[warnings="-register-all"]
Inductive PyVal : Type :=
| PyNone
| PyBool (b : bool)
| PyInt (n : Z)
| PyStr (s : str)
| PyList (xs : list PyVal)
| PyTuple (xs : list PyVal)
| PyDict (items : list (PyVal * PyVal))
| PyBytes (b : string).

Definition DQUOTE : ascii := "034"%char.
Definition BACKSLASH : ascii := "092"%char.

(** [int.__repr__]: decimal digits, a leading minus sign for negatives. *)
Fixpoint uint_digits (d : Decimal.uint) : text :=
  match d with
  | Decimal.Nil => []
  | Decimal.D0 d' => "0"%char :: uint_digits d'
  | Decimal.D1 d' => "1"%char :: uint_digits d'
  | Decimal.D2 d' => "2"%char :: uint_digits d'
  | Decimal.D3 d' => "3"%char :: uint_digits d'
  | Decimal.D4 d' => "4"%char :: uint_digits d'
  | Decimal.D5 d' => "5"%char :: uint_digits d'
  | Decimal.D6 d' => "6"%char :: uint_digits d'
  | Decimal.D7 d' => "7"%char :: uint_digits d'
  | Decimal.D8 d' => "8"%char :: uint_digits d'
  | Decimal.D9 d' => "9"%char :: uint_digits d'
  end.

Definition int_repr (n : Z) : text :=
  match Z.to_int n with
  | Decimal.Pos d => uint_digits d
  | Decimal.Neg d => "-"%char :: uint_digits d
  end.

Definition hex_digit (n : N) : ascii :=
  match n with
  | 0 => "0" | 1 => "1" | 2 => "2" | 3 => "3" | 4 => "4" | 5 => "5"
  | 6 => "6" | 7 => "7" | 8 => "8" | 9 => "9" | 10 => "a" | 11 => "b"
  | 12 => "c" | 13 => "d" | 14 => "e" | _ => "f"
  end%N%char.

(** ['{0:04x}'.format(n)] for a number below 0x10000. *)
Definition hex4 (n : N) : text :=
  [hex_digit (n / 4096); hex_digit (n / 256 mod 16);
   hex_digit (n / 16 mod 16); hex_digit (n mod 16)]%N.

(** One character of [py_encode_basestring_ascii]: the characters from
    space to tilde other than the quote and the backslash stand for
    themselves; the others are replaced through [ESCAPE_DCT], or by
    [\uXXXX] with four lowercase hexadecimal digits, a code point from
    0x10000 on by the two escapes of its surrogate pair. *)
Definition escape_char (n : N) : text :=
  if (n =? 92)%N then [BACKSLASH; BACKSLASH]
  else if (n =? 34)%N then [BACKSLASH; DQUOTE]
  else if (n =? 8)%N then [BACKSLASH; "b"%char]
  else if (n =? 12)%N then [BACKSLASH; "f"%char]
  else if (n =? 10)%N then [BACKSLASH; "n"%char]
  else if (n =? 13)%N then [BACKSLASH; "r"%char]
  else if (n =? 9)%N then [BACKSLASH; "t"%char]
  else if ((32 <=? n) && (n <=? 126))%N then [ascii_of_N n]
  else if (n <? 65536)%N then BACKSLASH :: "u"%char :: hex4 n
  else
    let v := (n - 65536)%N in
    let s1 := N.lor 55296 (N.land (N.shiftr v 10) 1023) in
    let s2 := N.lor 56320 (N.land v 1023) in
    BACKSLASH :: "u"%char :: hex4 s1 ++ BACKSLASH :: "u"%char :: hex4 s2.

Fixpoint escape_chars (s : str) : text :=
  match s with
  | [] => []
  | c :: s' => escape_char c ++ escape_chars s'
  end.

Definition encode_basestring_ascii (s : str) : text :=
  DQUOTE :: escape_chars s ++ [DQUOTE].

(** [', '.join(chunks)] *)
Fixpoint join_comma (chunks : list text) : text :=
  match chunks with
  | [] => []
  | [t] => t
  | t :: rest => t ++ ","%char :: " "%char :: join_comma rest
  end.

(** The text of a dictionary key: [str] keys as they are; [True],
    [False], [None] and [int] keys are turned into strings; any other
    key raises [TypeError] ([skipkeys] is off). *)
Definition encode_key (k : PyVal) : Outcome str :=
  match k with
  | PyStr s => Return s
  | PyBool true => Return (ustr "true")
  | PyBool false => Return (ustr "false")
  | PyNone => Return (ustr "null")
  | PyInt n => Return (map N_of_ascii (int_repr n))
  | _ => Raise TypeError
  end.

(** [JSONEncoder.iterencode] with the default options
    ([ensure_ascii], separators [", "] and [": "], no [default] hook). *)
Fixpoint encode (o : PyVal) : Outcome text :=
  let fix encode_list (xs : list PyVal) : Outcome (list text) :=
    match xs with
    | [] => Return []
    | x :: xs' =>
        match encode x with
        | Raise e => Raise e
        | Return t =>
            match encode_list xs' with
            | Raise e => Raise e
            | Return ts => Return (t :: ts)
            end
        end
    end in
  let fix encode_items (items : list (PyVal * PyVal)) : Outcome (list text) :=
    match items with
    | [] => Return []
    | (k, v) :: items' =>
        match encode_key k with
        | Raise e => Raise e
        | Return ks =>
            match encode v with
            | Raise e => Raise e
            | Return t =>
                match encode_items items' with
                | Raise e => Raise e
                | Return ts =>
                    Return ((encode_basestring_ascii ks
                               ++ ":"%char :: " "%char :: t) :: ts)
                end
            end
        end
    end in
  match o with
  | PyNone => Return (list_ascii_of_string "null")
  | PyBool true => Return (list_ascii_of_string "true")
  | PyBool false => Return (list_ascii_of_string "false")
  | PyInt n => Return (int_repr n)
  | PyStr s => Return (encode_basestring_ascii s)
  | PyList xs | PyTuple xs =>
      match encode_list xs with
      | Raise e => Raise e
      | Return ts => Return ("["%char :: join_comma ts ++ ["]"%char])
      end
  | PyDict items =>
      match encode_items items with
      | Raise e => Raise e
      | Return ts => Return ("{"%char :: join_comma ts ++ ["}"%char])
      end
  | PyBytes _ => Raise TypeError
  end.

(** Examples below write JSON text with apostrophes where the text has
    double quotes; [dq] puts the double quotes back. *)
Definition dq (s : string) : string :=
  string_of_list_ascii
    (map (fun c => if Ascii.eqb c "'"%char then DQUOTE else c)
         (list_ascii_of_string s)).

(** [json.dumps(obj)] *)
Definition dumps (obj : PyVal) : Outcome string :=
  match encode obj with
  | Return t => Return (string_of_list_ascii t)
  | Raise e => Raise e
  end.

(** *** The JSON decoder ([json.loads]) *)

(** JSON whitespace: space, tab, line feed, carriage return. *)
Definition is_ws (c : ascii) : bool :=
  let n := N_of_ascii c in
  ((n =? 32) || (n =? 9) || (n =? 10) || (n =? 13))%N.

Fixpoint skip_ws (s : text) : text :=
  match s with
  | c :: s' => if is_ws c then skip_ws s' else s
  | [] => []
  end.

Definition hex_value (c : ascii) : option N :=
  let n := N_of_ascii c in
  if ((48 <=? n) && (n <=? 57))%N then Some (n - 48)%N
  else if ((97 <=? n) && (n <=? 102))%N then Some (n - 87)%N
  else if ((65 <=? n) && (n <=? 70))%N then Some (n - 55)%N
  else None.

(** [_decode_uXXXX]: four hexadecimal digits. *)
Definition decode_uXXXX (h1 h2 h3 h4 : ascii) : option N :=
  match hex_value h1, hex_value h2, hex_value h3, hex_value h4 with
  | Some a, Some b, Some c, Some d => Some (((a * 16 + b) * 16 + c) * 16 + d)%N
  | _, _, _, _ => None
  end.

(** The [BACKSLASH] table of the decoder. *)
Definition unescape (c : ascii) : option N :=
  let n := N_of_ascii c in
  if (n =? 34)%N then Some 34%N
  else if (n =? 92)%N then Some 92%N
  else if (n =? 47)%N then Some 47%N
  else if (n =? 98)%N then Some 8%N
  else if (n =? 102)%N then Some 12%N
  else if (n =? 110)%N then Some 10%N
  else if (n =? 114)%N then Some 13%N
  else if (n =? 116)%N then Some 9%N
  else None.

Definition is_high_surrogate (n : N) : bool :=
  ((55296 <=? n) && (n <=? 56319))%N.

Definition is_low_surrogate (n : N) : bool :=
  ((56320 <=? n) && (n <=? 57343))%N.

Definition cons_char (c : N) (o : option (str * text)) : option (str * text) :=
  match o with
  | Some (s, rest) => Some (c :: s, rest)
  | None => None
  end.

(** [scanstring] in strict mode, from the character after the opening
    quote: the string and the text after its closing quote.  The escape
    of a high surrogate followed by the escape of a low surrogate is one
    code point.  A text with characters outside ASCII is outside this
    model (the encoder writes none) and is refused. *)
Fixpoint scanstring (s : text) : option (str * text) :=
  match s with
  | [] => None
  | c :: r =>
      let n := N_of_ascii c in
      if (n =? 34)%N then Some ([], r)
      else if (n =? 92)%N then
        match r with
        | [] => None
        | "u"%char :: r' =>
            match r' with
            | h1 :: h2 :: h3 :: h4 :: r'' =>
                match decode_uXXXX h1 h2 h3 h4 with
                | None => None
                | Some uni =>
                    if is_high_surrogate uni then
                      match r'' with
                      | "092"%char :: "u"%char :: l1 :: l2 :: l3 :: l4 :: r3 =>
                          match decode_uXXXX l1 l2 l3 l4 with
                          | None => None
                          | Some uni2 =>
                              if is_low_surrogate uni2 then
                                cons_char
                                  (65536 + N.lor (N.shiftl (uni - 55296) 10)
                                                 (uni2 - 56320))%N
                                  (scanstring r3)
                              else cons_char uni (scanstring r'')
                          end
                      | _ => cons_char uni (scanstring r'')
                      end
                    else cons_char uni (scanstring r'')
                end
            | _ => None
            end
        | e :: r' =>
            match unescape e with
            | Some ch => cons_char ch (scanstring r')
            | None => None
            end
        end
      else if (n <? 32)%N then None
      else if (128 <=? n)%N then None
      else cons_char n (scanstring r)
  end.

Definition digit_cons (c : ascii) : option (Decimal.uint -> Decimal.uint) :=
  match c with
  | "0"%char => Some Decimal.D0
  | "1"%char => Some Decimal.D1
  | "2"%char => Some Decimal.D2
  | "3"%char => Some Decimal.D3
  | "4"%char => Some Decimal.D4
  | "5"%char => Some Decimal.D5
  | "6"%char => Some Decimal.D6
  | "7"%char => Some Decimal.D7
  | "8"%char => Some Decimal.D8
  | "9"%char => Some Decimal.D9
  | _ => None
  end.

Definition is_digit (c : ascii) : bool :=
  match digit_cons c with Some _ => true | None => false end.

(** The longest run of digits a text starts with. *)
Fixpoint read_uint (s : text) : Decimal.uint * text :=
  match s with
  | c :: r =>
      match digit_cons c with
      | Some D => let '(d, rest) := read_uint r in (D d, rest)
      | None => (Decimal.Nil, s)
      end
  | [] => (Decimal.Nil, [])
  end.

(** The integer part of [NUMBER_RE]: a single [0], or a digit from 1 to
    9 followed by digits. *)
Definition read_integer (s : text) : option (Decimal.uint * text) :=
  match s with
  | "0"%char :: r => Some (Decimal.D0 Decimal.Nil, r)
  | c :: _ => if is_digit c then Some (read_uint s) else None
  | [] => None
  end.

(** A fraction [.d] or an exponent [e±d] follows: the number is a float. *)
Definition float_follows (s : text) : bool :=
  match s with
  | "."%char :: c :: _ => is_digit c
  | "e"%char :: c :: s' | "E"%char :: c :: s' =>
      if is_digit c then true
      else match c, s' with
           | "-"%char, c' :: _ | "+"%char, c' :: _ => is_digit c'
           | _, _ => false
           end
  | _ => false
  end.

(** The optional minus sign of a number. *)
Definition read_minus (s : text) : bool * text :=
  match s with
  | "-"%char :: r => (true, r)
  | _ => (false, s)
  end.

(** A number.  Floats are outside the values of this model and are
    refused. *)
Definition scan_number (s : text) : option (PyVal * text) :=
  let '(negative, s1) := read_minus s in
  match read_integer s1 with
  | None => None
  | Some (d, rest) =>
      if float_follows rest then None
      else Some (PyInt (Z.of_int (if negative then Decimal.Neg d else Decimal.Pos d)),
                 rest)
  end.

(** Equality of keys; the decoder's keys are strings. *)
Definition key_eqb (a b : PyVal) : bool :=
  match a, b with
  | PyStr s, PyStr s' => bool_decide (s = s')
  | _, _ => false
  end.

(** [d[key] = value] on a dictionary kept as the list of its items: the
    value of a key already there is replaced, a new key goes last. *)
Fixpoint dict_set (key value : PyVal) (items : list (PyVal * PyVal))
  : list (PyVal * PyVal) :=
  match items with
  | [] => [(key, value)]
  | (k, v) :: items' =>
      if key_eqb k key then (k, value) :: items'
      else (k, v) :: dict_set key value items'
  end.

(** [dict(pairs)] *)
Definition dict_of_pairs (pairs : list (PyVal * PyVal)) : list (PyVal * PyVal) :=
  fold_left (fun items kv => dict_set (fst kv) (snd kv) items) pairs [].

(** The loop of [JSONArray], at the first character of an element. *)
Fixpoint array_items (scan : text -> option (PyVal * text)) (n : nat) (s : text)
  : option (list PyVal * text) :=
  match n with
  | O => None
  | S n' =>
      match scan s with
      | None => None
      | Some (v, r) =>
          match skip_ws r with
          | "]"%char :: r' => Some ([v], r')
          | ","%char :: r' =>
              match array_items scan n' (skip_ws r') with
              | Some (vs, rest) => Some (v :: vs, rest)
              | None => None
              end
          | _ => None
          end
      end
  end.

Definition JSONArray (scan : text -> option (PyVal * text)) (s : text)
  : option (PyVal * text) :=
  match skip_ws s with
  | "]"%char :: r => Some (PyList [], r)
  | s' =>
      match array_items scan (length s') s' with
      | Some (vs, rest) => Some (PyList vs, rest)
      | None => None
      end
  end.

(** The loop of [JSONObject], after the opening quote of a key. *)
Fixpoint object_items (scan : text -> option (PyVal * text)) (n : nat) (s : text)
  : option (list (PyVal * PyVal) * text) :=
  match n with
  | O => None
  | S n' =>
      match scanstring s with
      | None => None
      | Some (key, r) =>
          match skip_ws r with
          | ":"%char :: r1 =>
              match scan (skip_ws r1) with
              | None => None
              | Some (v, r2) =>
                  match skip_ws r2 with
                  | "}"%char :: r3 => Some ([(PyStr key, v)], r3)
                  | ","%char :: r3 =>
                      match skip_ws r3 with
                      | "034"%char :: r4 =>
                          match object_items scan n' r4 with
                          | Some (kvs, rest) => Some ((PyStr key, v) :: kvs, rest)
                          | None => None
                          end
                      | _ => None
                      end
                  | _ => None
                  end
              end
          | _ => None
          end
      end
  end.

Definition JSONObject (scan : text -> option (PyVal * text)) (s : text)
  : option (PyVal * text) :=
  match skip_ws s with
  | "}"%char :: r => Some (PyDict [], r)
  | "034"%char :: r =>
      match object_items scan (length r) r with
      | Some (pairs, rest) => Some (PyDict (dict_of_pairs pairs), rest)
      | None => None
      end
  | _ => None
  end.

(** [scan_once]: one JSON value at the start of the text.  The fuel
    bounds the nesting of arrays and objects. *)
Fixpoint scan_once (fuel : nat) (s : text) : option (PyVal * text) :=
  match fuel with
  | O => None
  | S fuel' =>
      match s with
      | "034"%char :: r =>
          match scanstring r with
          | Some (key, rest) => Some (PyStr key, rest)
          | None => None
          end
      | "{"%char :: r => JSONObject (scan_once fuel') r
      | "["%char :: r => JSONArray (scan_once fuel') r
      | "n"%char :: "u"%char :: "l"%char :: "l"%char :: r => Some (PyNone, r)
      | "t"%char :: "r"%char :: "u"%char :: "e"%char :: r => Some (PyBool true, r)
      | "f"%char :: "a"%char :: "l"%char :: "s"%char :: "e"%char :: r =>
          Some (PyBool false, r)
      | _ => scan_number s
      end
  end.

(** [json.loads(s)]: one value, with whitespace around it and nothing
    else.  The nesting of a text is less than its length.  The result is
    [None] where [json.loads] raises, and for a text outside this model
    (a float, a character outside ASCII). *)
Definition loads (s : string) : option PyVal :=
  let t := list_ascii_of_string s in
  match scan_once (S (length t)) (skip_ws t) with
  | Some (v, rest) =>
      match skip_ws rest with
      | [] => Some v
      | _ :: _ => None
      end
  | None => None
  end.

(** *** Vocabulary for the round trip *)

(** A text that cannot continue a number: it is empty or starts with a
    comma, a closing bracket or a closing brace. *)
Definition delimited (rest : text) : bool :=
  match rest with
  | [] => true
  | c :: _ => (Ascii.eqb c "," || Ascii.eqb c "]" || Ascii.eqb c "}")%bool
  end.

(** The encoder on the elements of a list and on the items of a
    dictionary. *)
Fixpoint encode_all (xs : list PyVal) : Outcome (list text) :=
  match xs with
  | [] => Return []
  | x :: xs' =>
      match encode x with
      | Raise e => Raise e
      | Return t =>
          match encode_all xs' with
          | Raise e => Raise e
          | Return ts => Return (t :: ts)
          end
      end
  end.

Fixpoint encode_pairs (items : list (PyVal * PyVal)) : Outcome (list text) :=
  match items with
  | [] => Return []
  | (k, v) :: items' =>
      match encode_key k with
      | Raise e => Raise e
      | Return ks =>
          match encode v with
          | Raise e => Raise e
          | Return t =>
              match encode_pairs items' with
              | Raise e => Raise e
              | Return ts =>
                  Return ((encode_basestring_ascii ks
                             ++ ":"%char :: " "%char :: t) :: ts)
              end
          end
      end
  end.

(** A check of the numbers from [base] to [base + 2^k - 1]. *)
Fixpoint all_below (k : nat) (base : N) (P : N -> bool) : bool :=
  match k with
  | O => P base
  | S k' => all_below k' base P && all_below k' (base + 2 ^ N.of_nat k')%N P
  end.

(** A hexadecimal digit decodes to its number. *)
Definition hex_digit_decodes (d : N) : bool :=
  match hex_value (hex_digit d) with
  | Some m => (m =? d)%N
  | None => false
  end.

(** The surrogate pair of a code point from 0x10000 on, and its join. *)
Definition high_of (v : N) : N := N.lor 55296 (N.land (N.shiftr v 10) 1023).
Definition low_of (v : N) : N := N.lor 56320 (N.land v 1023).

(** The ten low bits of the two surrogate bases are free. *)
Definition surrogate_base_free (h : N) : bool :=
  ((N.lor 55296 h =? 55296 + h) && (N.lor 56320 h =? 56320 + h))%N.

(** What may follow the escape of a lone high surrogate: a text that
    does not start with the escape of a low surrogate. *)
Definition plain_next (X : text) : Prop :=
  forall h1 h2 h3 h4 uni,
    decode_uXXXX h1 h2 h3 h4 = Some uni ->
    scanstring (BACKSLASH :: "u"%char :: h1 :: h2 :: h3 :: h4 :: X)
    = cons_char uni (scanstring X).

(** The keys of a dictionary differ from each other. *)
Fixpoint keys_distinct (items : list (PyVal * PyVal)) : bool :=
  match items with
  | [] => true
  | (k, _) :: items' =>
      negb (existsb (fun kv => key_eqb (fst kv) k) items')
      && keys_distinct items'
  end.

(** A string the decoder reads back: code points of Python (below
    0x110000), and no high surrogate right before a low surrogate. *)
Fixpoint str_ok (s : str) : bool :=
  match s with
  | [] => true
  | c :: s' =>
      (c <? 1114112)%N
      && negb (is_high_surrogate c
               && match s' with
                  | c' :: _ => is_low_surrogate c'
                  | [] => false
                  end)
      && str_ok s'
  end.

(** The values that JSON text stands for: no tuples, no objects the
    encoder has no rule for, dictionaries whose keys are strings, and
    strings the decoder reads back. *)
Definition is_str (v : PyVal) : bool :=
  match v with PyStr s => str_ok s | _ => false end.

Fixpoint json_shaped (v : PyVal) : bool :=
  match v with
  | PyNone | PyBool _ | PyInt _ => true
  | PyStr s => str_ok s
  | PyList xs => forallb json_shaped xs
  | PyDict items =>
      forallb (fun kv => is_str (fst kv) && json_shaped (snd kv)) items
      && keys_distinct items
  | PyTuple _ | PyBytes _ => false
  end.

Fixpoint depth (v : PyVal) : nat :=
  match v with
  | PyList xs | PyTuple xs => S (fold_right Nat.max O (map depth xs))
  | PyDict items =>
      S (fold_right Nat.max O (map (fun kv => depth (snd kv)) items))
  | _ => 1
  end.

(** The first character of an encoded value is no whitespace and no
    closing bracket. *)
Definition head_ok (t : text) : bool :=
  match t with
  | c :: _ => negb (is_ws c) && negb (Ascii.eqb c "]")
  | [] => false
  end.

(** What the decoder is to do with an encoded value, at one fuel. *)
Definition reads_back (f : nat) (x : PyVal) : Prop :=
  forall t rest,
    encode x = Return t -> delimited rest = true ->
    scan_once f (t ++ rest) = Some (x, rest).

End Json.

(** ** The mapped class [RehabPlan] and the table [rehab_plans] *)

Module RehabPlan.

(** One instance of the mapped class, and one row of the table: the
    eleven columns, each nullable in Python ([None]).  [created_at] is a
    [datetime], kept as microseconds since the epoch. *)
Record t : Type := mk {
  id : option Z;
  patient_age : option string;
  patient_gender : option string;
  surgery_date : option string;
  conditions : option string;
  additional_notes : option string;
  procedure_identified : option string;
  days_post_op : option Z;
  plan_json : option string;
  created_at : option Z;
  file_name : option string
}.

Definition set_id (i : Z) (p : t) : t :=
  mk (Some i) (patient_age p) (patient_gender p) (surgery_date p)
     (conditions p) (additional_notes p) (procedure_identified p)
     (days_post_op p) (plan_json p) (created_at p) (file_name p).

Definition set_created_at (ts : Z) (p : t) : t :=
  mk (id p) (patient_age p) (patient_gender p) (surgery_date p)
     (conditions p) (additional_notes p) (procedure_identified p)
     (days_post_op p) (plan_json p) (Some ts) (file_name p).

End RehabPlan.

(** What the module prints. *)
Inductive Message : Type :=
| MsgInitialized                 (* Database initialized: rehab_plans.db *)
| MsgSaved (i : option Z)        (* Saved plan to database (ID: i) *)
| MsgSaveFailed (e : PyExn).     (* Database save failed: e *)

(** The durable state: the committed rows of [rehab_plans], in rowid
    order, and the text printed so far. *)
Record World : Type := mkWorld {
  table : list RehabPlan.t;
  stdout : list Message
}.

(** What a call takes from its surroundings: the clock, the storage
    failures that strike during the call, and SQLite's random source. *)
Record Env : Type := mkEnv {
  utcnow : Z;
  insert_fault : option PyExn;
  commit_fault : option PyExn;
  select_fault : option PyExn;
  randomness : list Z
}.

(** A call on which the storage works. *)
Definition calm (now : Z) : Env := mkEnv now None None None [].

(** ** SQLite: rowids and the INSERT statement *)

Module Sqlite.

Definition MAX_ROWID : Z := 9223372036854775807.
Definition MIN_INT64 : Z := -9223372036854775808.

Definition rowids (rows : list RehabPlan.t) : list Z :=
  omap RehabPlan.id rows.

(** The key of the last entry of the table b-tree. *)
Definition last_rowid (rows : list RehabPlan.t) : option Z :=
  match rowids rows with
  | [] => None
  | i :: is' => Some (fold_left Z.max is' i)
  end.

(** [OP_NewRowid]: 1 on an empty table, else the largest rowid plus
    one; when the largest rowid is [MAX_ROWID], up to 100 random
    candidates [(v & (MAX_ROWID>>1)) + 1] are tried and the first one
    not in use is taken; with none, the statement fails (SQLITE_FULL). *)
Definition random_candidates (draws : list Z) : list Z :=
  map (fun v => Z.land v (Z.shiftr MAX_ROWID 1) + 1) (take 100 draws).

Definition new_rowid (draws : list Z) (rows : list RehabPlan.t) : option Z :=
  match last_rowid rows with
  | None => Some 1
  | Some v =>
      if v <? MAX_ROWID then Some (v + 1)
      else List.find (fun c => negb (existsb (Z.eqb c) (rowids rows)))
                     (random_candidates draws)
  end.

(** The table b-tree keeps its entries ordered by rowid. *)
Fixpoint store_row (r : RehabPlan.t) (rows : list RehabPlan.t)
  : list RehabPlan.t :=
  match rows with
  | [] => [r]
  | r' :: rows' =>
      match RehabPlan.id r, RehabPlan.id r' with
      | Some i, Some i' =>
          if i <? i' then r :: rows else r' :: store_row r rows'
      | _, _ => r' :: store_row r rows'
      end
  end.

Definition fits_int64 (n : Z) : bool :=
  (MIN_INT64 <=? n) && (n <=? MAX_ROWID).

(** [INSERT INTO rehab_plans (...) VALUES (...)] for one instance, on
    the rows the transaction sees.  The column default of [created_at]
    is evaluated when the instance has none; an integer parameter that
    does not fit 64 bits cannot be bound; the primary key is allocated
    by the table unless the instance carries one, which must be new.
    Returns the instance as inserted and the rows with it. *)
Definition insert (env : Env) (obj : RehabPlan.t) (rows : list RehabPlan.t)
  : Outcome (RehabPlan.t * list RehabPlan.t) :=
  let obj :=
    match RehabPlan.created_at obj with
    | Some _ => obj
    | None => RehabPlan.set_created_at (utcnow env) obj
    end in
  if negb (from_option fits_int64 true (RehabPlan.days_post_op obj))
  then Raise OverflowError
  else match insert_fault env with
  | Some e => Raise e
  | None =>
      match RehabPlan.id obj with
      | Some i =>
          if negb (fits_int64 i) then Raise OverflowError
          else if existsb (Z.eqb i) (rowids rows) then Raise IntegrityError
          else Return (obj, store_row obj rows)
      | None =>
          match new_rowid (randomness env) rows with
          | None => Raise OperationalError
          | Some i =>
              let obj' := RehabPlan.set_id i obj in
              Return (obj', store_row obj' rows)
          end
      end
  end.

End Sqlite.

(** ** The SQLAlchemy session *)

(** A session tracks instances (its identity map; an instance is named
    by its position there), the instances waiting for their INSERT, and
    the rows seen by its open transaction, if one is open. *)
Record Session : Type := mkSession {
  identity_map : list RehabPlan.t;
  pending : list nat;
  transaction : option (list RehabPlan.t)
}.

(** The state a function body runs in: the world and its local [db]. *)
Definition Frame : Type := World * Session.

Module Db.

Import PyM.

(** [SessionLocal()] *)
Definition SessionLocal : Session := mkSession [] [] None.

Definition session : M Frame Session := fun f => (Return (snd f), f).

Definition set_session (s : Session) : M Frame unit :=
  modify (fun f => (fst f, s)).

(** The rows a statement of the session works on; a session that has
    no transaction begins one on the committed rows. *)
Definition begin_rows : M Frame (list RehabPlan.t) :=
  fun f =>
    let rows := default (table (fst f)) (transaction (snd f)) in
    (Return rows,
     (fst f, mkSession (identity_map (snd f)) (pending (snd f)) (Some rows))).

Definition set_rows (rows : option (list RehabPlan.t)) : M Frame unit :=
  modify (fun f =>
    (fst f, mkSession (identity_map (snd f)) (pending (snd f)) rows)).

Definition instance (h : nat) : M Frame RehabPlan.t :=
  s ← session;
  match identity_map s !! h with
  | Some obj => mret obj
  | None => raise InvalidRequestError
  end.

Definition set_instance (h : nat) (obj : RehabPlan.t) : M Frame unit :=
  modify (fun f =>
    (fst f, mkSession (<[h := obj]> (identity_map (snd f)))
                      (pending (snd f)) (transaction (snd f)))).

(** [db.add(obj)]: the instance becomes pending. *)
Definition add (obj : RehabPlan.t) : M Frame nat :=
  s ← session;
  let h := length (identity_map s) in
  set_session (mkSession (identity_map s ++ [obj]) (pending s ++ [h])
                         (transaction s));;
  mret h.

(** The flush: one INSERT per pending instance, in the order they were
    added.  An instance that was inserted carries its primary key and
    defaults.  When a statement fails the session rolls its transaction
    back and raises the error again. *)
Fixpoint flush_pending (env : Env) (hs : list nat) : M Frame unit :=
  match hs with
  | [] => mret tt
  | h :: hs' =>
      obj ← instance h;
      rows ← begin_rows;
      match Sqlite.insert env obj rows with
      | Raise e => set_rows None;; raise e
      | Return (obj', rows') =>
          set_instance h obj';;
          set_rows (Some rows');;
          flush_pending env hs'
      end
  end.

Definition flush (env : Env) : M Frame unit :=
  s ← session;
  flush_pending env (pending s);;
  s' ← session;
  set_session (mkSession (identity_map s') [] (transaction s')).

(** [db.commit()]: flush, then COMMIT.  The rows of the transaction
    become the committed rows in one step; when COMMIT fails nothing is
    committed and the transaction stays open. *)
Definition commit (env : Env) : M Frame unit :=
  flush env;;
  s ← session;
  match transaction s with
  | None => mret tt
  | Some rows =>
      match commit_fault env with
      | Some e => raise e
      | None =>
          modify (fun f =>
            (mkWorld rows (stdout (fst f)),
             mkSession (identity_map (snd f)) (pending (snd f)) None))
      end
  end.

(** [db.refresh(obj)]: load the instance again from its row. *)
Definition refresh (env : Env) (h : nat) : M Frame unit :=
  obj ← instance h;
  rows ← begin_rows;
  match select_fault env with
  | Some e => raise e
  | None =>
      match RehabPlan.id obj with
      | None => raise InvalidRequestError
      | Some i =>
          match List.find (fun r => bool_decide (RehabPlan.id r = Some i)) rows with
          | Some row => set_instance h row
          | None => raise InvalidRequestError
          end
      end
  end.

(** [db.rollback()]: the open transaction is abandoned and the pending
    instances leave the session. *)
Definition rollback : M Frame unit :=
  s ← session;
  set_session (mkSession (identity_map s) [] None).

(** [db.close()]: the connection is released, an open transaction is
    rolled back, the instances are detached. *)
Definition close : M Frame unit := set_session SessionLocal.

(** [db.query(RehabPlan)]: the rows of a SELECT over the table. *)
Definition query (env : Env) : M Frame (list RehabPlan.t) :=
  rows ← begin_rows;
  match select_fault env with
  | Some e => raise e
  | None => mret rows
  end.

Definition print (m : Message) : M Frame unit :=
  modify (fun f => (mkWorld (table (fst f)) (stdout (fst f) ++ [m]), snd f)).

(** A function body with its local session [db = SessionLocal()]. *)
Definition with_session {A} (body : M Frame A) : M World A :=
  fun w =>
    match body (w, SessionLocal) with
    | (o, (w', _)) => (o, w')
    end.

End Db.

(** ** SQLite aggregates: [count], [GROUP BY], [avg] *)

Module Aggregate.

Definition sqlite3Isspace (c : ascii) : bool :=
  let n := N_of_ascii c in
  ((n =? 32) || ((9 <=? n) && (n <=? 13)))%N.

Definition digit_value (c : ascii) : option Z :=
  let n := N_of_ascii c in
  if ((48 <=? n) && (n <=? 57))%N then Some (Z.of_N n - 48) else None.

Fixpoint skip_spaces (z : list ascii) : list ascii :=
  match z with
  | c :: z' => if sqlite3Isspace c then skip_spaces z' else z
  | [] => []
  end.

(** Read a run of digits into the accumulator [s]; returns the value,
    the number of digits read and the rest of the text. *)
Fixpoint read_digits (z : list ascii) (s : Z) (n : Z) : Z * Z * list ascii :=
  match z with
  | c :: z' =>
      match digit_value c with
      | Some d => read_digits z' (s * 10 + d) (n + 1)
      | None => (s, n, z)
      end
  | [] => (s, n, [])
  end.

Definition read_sign (z : list ascii) : Z * list ascii :=
  match z with
  | "-"%char :: z' => (-1, z')
  | "+"%char :: z' => (1, z')
  | _ => (1, z)
  end.

Definition pow10 (e : Z) : Qc :=
  if 0 <=? e then Q2Qc (inject_Z (10 ^ e))
  else (/ Q2Qc (inject_Z (10 ^ (- e))))%Qc.

(** [sqlite3AtoF]: the number a text starts with, after leading
    spaces: a sign, digits, a fraction, an exponent, each optional;
    what follows is ignored, and a text that starts with no number
    reads as 0. *)
Definition sqlite3AtoF (str : string) : Qc :=
  let z := skip_spaces (list_ascii_of_string str) in
  let '(sign, z) := read_sign z in
  let '(s, _, z) := read_digits z 0 0 in
  let '(s, d, z) :=
    match z with
    | "."%char :: z' =>
        let '(s', nfrac, z'') := read_digits z' s 0 in (s', - nfrac, z'')
    | _ => (s, 0, z)
    end in
  let e :=
    match z with
    | "e"%char :: z' | "E"%char :: z' =>
        let '(esign, z'') := read_sign z' in
        let '(e, _, _) := read_digits z'' 0 0 in
        esign * e
    | _ => 0
    end in
  (Q2Qc (inject_Z (sign * s)) * pow10 (e + d))%Qc.

(** The accumulator of [sum] and [avg]: the sum and the number of
    non-NULL values; NULL values are skipped. *)
Definition sumStep (acc : Qc * nat) (v : option string) : Qc * nat :=
  match v with
  | None => acc
  | Some s => ((fst acc + sqlite3AtoF s)%Qc, S (snd acc))
  end.

(** [avgFinalize]: NULL when no value was seen. *)
Definition avgFinalize (acc : Qc * nat) : option Qc :=
  match snd acc with
  | O => None
  | S _ => Some (fst acc / Q2Qc (inject_Z (Z.of_nat (snd acc))))%Qc
  end.

Definition avg (values : list (option string)) : option Qc :=
  avgFinalize (fold_left sumStep values (Q2Qc 0, O)).

(** [SELECT key, count(id) ... GROUP BY key]: one result row per
    distinct key (NULL is a key of its own), with the number of rows of
    the group whose [id] is not NULL. *)
Definition bump (counted : bool) (n : nat) : nat :=
  if counted then S n else n.

Fixpoint group_step (key : option string) (counted : bool)
    (groups : list (option string * nat)) : list (option string * nat) :=
  match groups with
  | [] => [(key, bump counted O)]
  | (k, n) :: groups' =>
      if bool_decide (k = key) then (k, bump counted n) :: groups'
      else (k, n) :: group_step key counted groups'
  end.

Definition group_count (rows : list RehabPlan.t)
  : list (option string * nat) :=
  fold_left
    (fun groups r =>
       group_step (RehabPlan.procedure_identified r)
                  (bool_decide (is_Some (RehabPlan.id r))) groups)
    rows [].

End Aggregate.

(** ** The functions of [database.py] *)

Import PyM.

(** [init_database()]: [create_all] leaves an existing table as it is. *)
Definition init_database : M World unit :=
  modify (fun w => mkWorld (table w) (stdout w ++ [MsgInitialized])).

(** [x or ''] on an optional [str]. *)
Definition or_empty (x : option string) : string :=
  match x with
  | Some (String c s) => String c s
  | Some EmptyString | None => EmptyString
  end.

(** [dict(pairs)]: later pairs replace earlier ones. *)
Definition dict {K V} `{Countable K} (pairs : list (K * V)) : gmap K V :=
  fold_left (fun m kv => <[kv.1 := kv.2]> m) pairs ∅.

Definition save_plan (env : Env) (patient_info : gmap string string)
    (procedure : string) (days_post_op : Z) (plan : Json.PyVal)
    (file_name : option string) (notes : option string)
  : M World (option Z) :=
  Db.with_session
    (try_except_finally
       (text ← lift (Json.dumps plan);
        let db_plan :=
          RehabPlan.mk
            None
            (Some (default "N/A"%string (patient_info !! "age"%string)))
            (Some (default "N/A"%string (patient_info !! "gender"%string)))
            (Some (default ""%string (patient_info !! "surgeryDate"%string)))
            (Some (default ""%string (patient_info !! "conditions"%string)))
            (Some (or_empty notes))
            (Some procedure)
            (Some days_post_op)
            (Some text)
            None
            file_name in
        h ← Db.add db_plan;
        Db.commit env;;
        Db.refresh env h;;
        obj ← Db.instance h;
        Db.print (MsgSaved (RehabPlan.id obj));;
        mret (RehabPlan.id obj))
       (fun e =>
          Db.print (MsgSaveFailed e);;
          Db.rollback;;
          mret None)
       Db.close).

Definition get_all_plans (env : Env) : M World (list RehabPlan.t) :=
  Db.with_session
    (try_finally
       (plans ← Db.query env;
        mret plans)
       Db.close).

Definition get_plan_by_id (env : Env) (plan_id : Z)
  : M World (option RehabPlan.t) :=
  Db.with_session
    (try_finally
       (rows ← Db.query env;
        let plan :=
          List.find (fun r => bool_decide (RehabPlan.id r = Some plan_id)) rows in
        mret plan)
       Db.close).

(** The dictionary [get_stats] returns, with its three keys. *)
Record Stats : Type := mkStats {
  total_plans : nat;
  procedures : gmap (option string) nat;
  average_age : option Qc
}.

Definition get_stats (env : Env) : M World Stats :=
  Db.with_session
    (try_finally
       (rows ← Db.query env;
        let total_plans := length rows in
        rows' ← Db.query env;
        let procedures := Aggregate.group_count rows' in
        rows'' ← Db.query env;
        let avg_age := Aggregate.avg (map RehabPlan.patient_age rows'') in
        mret (mkStats total_plans (dict procedures) avg_age))
       Db.close).

(** A fresh store: the table exists and holds no row. *)
Definition fresh : World := mkWorld [] [].

(** * Vocabulary of the statements *)

(** The instance [save_plan] constructs from its arguments and the
    encoded plan. *)
Definition constructed (patient_info : gmap string string)
    (procedure : string) (days_post_op : Z) (text : string)
    (file_name : option string) (notes : option string) : RehabPlan.t :=
  RehabPlan.mk
    None
    (Some (default "N/A"%string (patient_info !! "age"%string)))
    (Some (default "N/A"%string (patient_info !! "gender"%string)))
    (Some (default ""%string (patient_info !! "surgeryDate"%string)))
    (Some (default ""%string (patient_info !! "conditions"%string)))
    (Some (or_empty notes))
    (Some procedure)
    (Some days_post_op)
    (Some text)
    None
    file_name.

Definition failed (w : World) (e : PyExn) : World :=
  mkWorld (table w) (stdout w ++ [MsgSaveFailed e]).

(** The row the INSERT stores for a constructed instance. *)
Definition inserted (env : Env) (i : Z) (obj : RehabPlan.t) : RehabPlan.t :=
  RehabPlan.set_id i (RehabPlan.set_created_at (utcnow env) obj).

(** What the call [db.add(db_plan); db.commit()] of [save_plan] returns:
    the outcome of the insert. *)
Definition insert_outcome (env : Env) (obj : RehabPlan.t) (w : World)
  : Outcome unit :=
  ((_ ← Db.add obj; Db.commit env) (w, Db.SessionLocal)).1.

(** The arguments of one call of [save_plan], with the surroundings it
    runs in. *)
Record SaveCall : Type := mkSaveCall {
  call_env : Env;
  call_patient_info : gmap string string;
  call_procedure : string;
  call_days_post_op : Z;
  call_plan : Json.PyVal;
  call_file_name : option string;
  call_notes : option string
}.

Definition save_call (c : SaveCall) : M World (option Z) :=
  save_plan (call_env c) (call_patient_info c) (call_procedure c)
            (call_days_post_op c) (call_plan c) (call_file_name c)
            (call_notes c).

(** The calls of a list, one after the other; the results in order. *)
Fixpoint save_each (calls : list SaveCall) : M World (list (option Z)) :=
  match calls with
  | [] => mret []
  | c :: calls' =>
      r ← save_call c;
      rs ← save_each calls';
      mret (r :: rs)
  end.

(** On a store that started empty the rowids in use are 1, 2, ..., k. *)
Definition numbered (k : nat) (rows : list RehabPlan.t) : Prop :=
  Sqlite.rowids rows = map Z.of_nat (seq 1 k).

(** A call of one of the five functions. *)
Inductive Call : Type :=
| CallInit
| CallSave (c : SaveCall)
| CallGetAll (env : Env)
| CallGetById (env : Env) (plan_id : Z)
| CallGetStats (env : Env).

(** The store after a call. *)
Definition run_call (w : World) (call : Call) : World :=
  match call with
  | CallInit => (init_database w).2
  | CallSave c => (save_call c w).2
  | CallGetAll env => (get_all_plans env w).2
  | CallGetById env plan_id => (get_plan_by_id env plan_id w).2
  | CallGetStats env => (get_stats env w).2
  end.

Definition run_calls (w : World) (calls : list Call) : World :=
  fold_left run_call calls w.

(** The first binding of a key in a list of pairs. *)
Fixpoint assoc (key : option string) (groups : list (option string * nat))
  : option nat :=
  match groups with
  | [] => None
  | (k, n) :: groups' => if bool_decide (k = key) then Some n else assoc key groups'
  end.

(** The number of rows bearing a procedure. *)
Definition records_with (key : option string) (rows : list RehabPlan.t) : nat :=
  length (List.filter
            (fun r => bool_decide (RehabPlan.procedure_identified r = key)) rows).

(** Every row of the table has its primary key. *)
Definition keyed (rows : list RehabPlan.t) : Prop :=
  Forall (fun r => is_Some (RehabPlan.id r)) rows.









(** ** Concrete calls and stores *)

Definition plan_ex : Json.PyVal :=
  Json.PyDict [(Json.PyStr (Json.ustr "phase"), Json.PyStr (Json.ustr "early"));
               (Json.PyStr (Json.ustr "weeks"), Json.PyList [Json.PyInt 1; Json.PyInt 2])].

Definition info_ex : gmap string string :=
  {[ "age"%string := "45"%string; "gender"%string := "F"%string ]}.

Definition call_ex (now : Z) (procedure : string) : SaveCall :=
  mkSaveCall (calm now) info_ex procedure 12 plan_ex None None.

Definition storage_down : Env :=
  mkEnv 1000 (Some OperationalError) None None [].

Definition calls_ex : list SaveCall :=
  [call_ex 1000 "ACL"; call_ex 2000 "ACL"; call_ex 3000 "Meniscus"].

(** Three saves with the procedures A, A and B on a fresh store. *)
Definition store_AAB : World :=
  (save_each [call_ex 1000 "A"; call_ex 2000 "A"; call_ex 3000 "B"] fresh).2.


(** ** Vocabulary of the further properties *)

(** A call during which the SELECT statements fail. *)
Definition reads_down : Env :=
  mkEnv 1000 None None (Some OperationalError) [].

(** Every row has its primary key and no two rows share one. *)
Definition unique_ids (rows : list RehabPlan.t) : Prop :=
  keyed rows /\ NoDup (Sqlite.rowids rows).


(** The ids among the results of a sequence of [save_plan] calls. *)
Definition ids_returned (results : list (option Z)) : list Z :=
  omap (fun r => r) results.

(** A history: the database is initialized, [save_plan] is called three
    times, once while the storage is down, and the store is read. *)
Definition history_ex : list Call :=
  [CallInit;
   CallSave (call_ex 1000 "ACL");
   CallSave (mkSaveCall storage_down info_ex "ACL" 12 plan_ex None None);
   CallGetAll (calm 1500);
   CallSave (call_ex 2000 "Meniscus");
   CallGetStats (calm 2500)].

(** The sum of the counts of a [procedures] dictionary. *)
Definition sum_counts (m : gmap (option string) nat) : nat :=
  map_fold (fun _ n acc => (n + acc)%nat) 0%nat m.



(** A character from space to tilde. *)
Definition printable (c : ascii) : bool :=
  ((32 <=? N_of_ascii c) && (N_of_ascii c <=? 126))%N.



(** What JSON text keeps of a value: a tuple becomes a list, and a
    dictionary key becomes the string the encoder writes for it. *)
Definition key_str (k : Json.PyVal) : Json.PyVal :=
  match Json.encode_key k with
  | Return s => Json.PyStr s
  | Raise _ => k
  end.

Fixpoint normalize (v : Json.PyVal) : Json.PyVal :=
  match v with
  | Json.PyList xs | Json.PyTuple xs => Json.PyList (map normalize xs)
  | Json.PyDict items =>
      Json.PyDict (map (fun kv => (key_str (fst kv), normalize (snd kv))) items)
  | _ => v
  end.

(** A character a number can start with, the spaces before it
    included: a space, a sign, a digit or a point. *)
Definition opens_number (c : ascii) : bool :=
  Aggregate.sqlite3Isspace c
  || bool_decide (is_Some (Aggregate.digit_value c))
  || Ascii.eqb c "+" || Ascii.eqb c "-" || Ascii.eqb c ".".


(** The text of [plan_ex]. *)
Definition text_ex : string := Json.dq "{'phase': 'early', 'weeks': [1, 2]}".

(** A plan with a tuple, an integer key and characters outside ASCII. *)
Definition plan_mixed : Json.PyVal :=
  Json.PyDict [(Json.PyInt 1, Json.PyTuple [Json.PyInt 3; Json.PyStr [233; 128512]%N]);
               (Json.PyStr (Json.ustr "done"), Json.PyBool false)].

(** The second row of [store_AAB]. *)
Definition row_ex : RehabPlan.t :=
  inserted (calm 2000) 2 (constructed info_ex "A" 12 text_ex None None).

(** The clock readings of the [save_plan] calls of a history, in order,
    and the [created_at] values of a table, in the order of its rows. *)
Definition save_clocks (calls : list Call) : list Z :=
  omap (fun call =>
          match call with
          | CallSave c => Some (utcnow (call_env c))
          | _ => None
          end) calls.

Definition creation_times (rows : list RehabPlan.t) : list Z :=
  omap RehabPlan.created_at rows.

(** * Properties *)

(** ** The model on concrete inputs *)

Example dumps_ex1 :
  Json.dumps (Json.PyDict [(Json.PyStr (Json.ustr "a"), Json.PyList [Json.PyInt 1; Json.PyInt (-20); Json.PyNone]);
                           (Json.PyInt 7, Json.PyStr (Json.ustr "x"))])
  = Return (Json.dq "{'a': [1, -20, null], '7': 'x'}").
Proof. vm_compute. reflexivity. Qed.

Example loads_ex1 :
  Json.loads (Json.dq " {'a': [1, -20, null, true], 'b\u00e9\n': {}, 'a': 'x'} ")
  = Some (Json.PyDict [(Json.PyStr (Json.ustr "a"), Json.PyStr (Json.ustr "x"));
                       (Json.PyStr [98; 233; 10]%N, Json.PyDict [])]).
Proof. vm_compute. reflexivity. Qed.

(** U+1F600 is written as the two escapes of its surrogate pair, and
    read back as one code point. *)
Example dumps_ex2 :
  Json.dumps (Json.PyStr [128512]%N) = Return (Json.dq "'\ud83d\ude00'").
Proof. vm_compute. reflexivity. Qed.

Example loads_ex4 :
  Json.loads (Json.dq "'\ud83d\ude00'") = Some (Json.PyStr [128512]%N).
Proof. vm_compute. reflexivity. Qed.

Example loads_ex2 : Json.loads "[1, 2.5]" = None.
Proof. vm_compute. reflexivity. Qed.

Example loads_ex3 : Json.loads "01" = None.
Proof. vm_compute. reflexivity. Qed.

Example atof_ex1 : Aggregate.sqlite3AtoF "45" = Q2Qc 45.
Proof. apply Qc_is_canon. reflexivity. Qed.


Example atof_ex3 : Aggregate.sqlite3AtoF " -4.5e1 years" = Q2Qc (-45).
Proof. apply Qc_is_canon. reflexivity. Qed.

Example atof_ex4 : Aggregate.sqlite3AtoF "12.25" = Q2Qc (49 # 4).
Proof. apply Qc_is_canon. reflexivity. Qed.

Example save_ex1 :
  (save_plan (calm 1000) {[ "age"%string := "45"%string ]} "ACL" 12
             (Json.PyDict [(Json.PyStr (Json.ustr "week"), Json.PyInt 1)]) None None fresh).1
  = Return (Some 1).
Proof. vm_compute. reflexivity. Qed.

(** ** Rowid allocation *)

Section Rowids.

Import Sqlite.

Lemma fold_max_ge (l : list Z) (a : Z) : a <= fold_left Z.max l a.
Proof.
  revert a. induction l as [|x l IH]; intros a; simpl; [lia|].
  specialize (IH (Z.max a x)). lia.
Qed.

Lemma fold_max_bound (l : list Z) (a x : Z) :
  In x l -> x <= fold_left Z.max l a.
Proof.
  revert a. induction l as [|y l IH]; intros a Hin; simpl in *; [tauto|].
  destruct Hin as [->|Hin].
  - pose proof (fold_max_ge l (Z.max a x)). lia.
  - now apply IH.
Qed.

(** Every rowid in the table is at most the last one. *)
Lemma last_rowid_bound rows v i :
  last_rowid rows = Some v -> In i (rowids rows) -> i <= v.
Proof.
  unfold last_rowid. destruct (rowids rows) as [|a l]; [discriminate|].
  intros [= <-] [->|Hin].
  - apply fold_max_ge.
  - now apply fold_max_bound.
Qed.

Lemma last_rowid_None rows : last_rowid rows = None -> rowids rows = [].
Proof. unfold last_rowid. now destruct (rowids rows). Qed.

Lemma existsb_eqb_In (i : Z) (l : list Z) :
  existsb (Z.eqb i) l = true <-> In i l.
Proof.
  rewrite existsb_exists. split.
  - intros (x & Hx & Heq). apply Z.eqb_eq in Heq. now subst.
  - intros Hin. exists i. split; [assumption | apply Z.eqb_refl].
Qed.

(** A rowid handed out by the table is not in use. *)
Lemma new_rowid_fresh draws rows i :
  new_rowid draws rows = Some i -> ~ In i (rowids rows).
Proof.
  unfold new_rowid. destruct (last_rowid rows) as [v|] eqn:Hlast.
  - destruct (v <? MAX_ROWID) eqn:Hlt.
    + intros [= <-] Hin. apply (last_rowid_bound _ _ _ Hlast) in Hin. lia.
    + intros Hfind Hin. apply find_some in Hfind as [_ Hneg].
      apply negb_true_iff in Hneg.
      apply existsb_eqb_In in Hin. congruence.
  - intros _. apply last_rowid_None in Hlast. rewrite Hlast. simpl. tauto.
Qed.

(** Below [MAX_ROWID] the new rowid is larger than every rowid in use. *)
Lemma new_rowid_next draws rows v :
  last_rowid rows = Some v -> v < MAX_ROWID ->
  new_rowid draws rows = Some (v + 1).
Proof.
  intros Hlast Hlt. unfold new_rowid. rewrite Hlast.
  destruct (v <? MAX_ROWID) eqn:E; [reflexivity|].
  apply Z.ltb_ge in E. lia.
Qed.

Lemma rowids_app rows rows' : rowids (rows ++ rows') = rowids rows ++ rowids rows'.
Proof. unfold rowids. apply omap_app. Qed.

(** A row whose rowid is above all others goes to the end. *)
Lemma store_row_last r rows i :
  RehabPlan.id r = Some i ->
  (forall j, In j (rowids rows) -> j < i) ->
  store_row r rows = rows ++ [r].
Proof.
  intros Hid. induction rows as [|r' rows IH]; intros Hlt; simpl; [reflexivity|].
  rewrite Hid. destruct (RehabPlan.id r') as [i'|] eqn:Hid'.
  - assert (i' < i) as Hi'.
    { apply Hlt. unfold rowids. simpl. rewrite Hid'. now left. }
    destruct (i <? i') eqn:E; [apply Z.ltb_lt in E; lia|].
    f_equal. apply IH. intros j Hj. apply Hlt.
    unfold rowids. simpl. rewrite Hid'. now right.
  - f_equal. apply IH. intros j Hj. apply Hlt.
    unfold rowids. simpl. now rewrite Hid'.
Qed.

(** Storing a row adds it and keeps every other row as it was. *)
Lemma store_row_split r rows :
  exists before after,
    rows = before ++ after /\ store_row r rows = before ++ r :: after.
Proof.
  induction rows as [|r' rows (before & after & Hrows & Hst)]; simpl.
  - now exists [], [].
  - destruct (RehabPlan.id r) as [i|], (RehabPlan.id r') as [i'|];
      try (exists (r' :: before), after; simpl; split; congruence).
    destruct (i <? i').
    + now exists [], (r' :: rows).
    + exists (r' :: before), after; simpl; split; congruence.
Qed.

End Rowids.

(** ** What a call of [save_plan] does, path by path *)

(** Unfold the session operations and the monad. *)
Ltac run_db1 :=
  unfold Db.add, Db.commit, Db.flush, Db.refresh, Db.rollback, Db.close,
    Db.query, Db.print, Db.instance, Db.set_instance, Db.begin_rows,
    Db.set_rows, Db.session, Db.set_session;
  unfold mbind, PyM_bind, mret, PyM_ret, bind, lift, ret, raise, modify.

Ltac run_db := repeat (progress (run_db1; cbn)).

#[local] Opaque Sqlite.insert.

Lemma save_plan_run env patient_info procedure days_post_op plan file_name notes w :
  save_plan env patient_info procedure days_post_op plan file_name notes w =
  match Json.dumps plan with
  | Raise e => (Return None, failed w e)
  | Return text =>
      match Sqlite.insert env
              (constructed patient_info procedure days_post_op text file_name notes)
              (table w) with
      | Raise e => (Return None, failed w e)
      | Return (obj, rows) =>
          match commit_fault env with
          | Some e => (Return None, failed w e)
          | None =>
              match select_fault env with
              | Some e => (Return None, failed (mkWorld rows (stdout w)) e)
              | None =>
                  match RehabPlan.id obj with
                  | None =>
                      (Return None,
                       failed (mkWorld rows (stdout w)) InvalidRequestError)
                  | Some i =>
                      match List.find
                              (fun r => bool_decide (RehabPlan.id r = Some i))
                              rows with
                      | Some row =>
                          (Return (RehabPlan.id row),
                           mkWorld rows
                             (stdout w ++ [MsgSaved (RehabPlan.id row)]))
                      | None =>
                          (Return None,
                           failed (mkWorld rows (stdout w)) InvalidRequestError)
                      end
                  end
              end
          end
      end
  end.
Proof.
  destruct w as [rows0 out0].
  unfold save_plan, Db.with_session, try_except_finally, failed.
  run_db1.
  destruct (Json.dumps plan) as [text|e]; [|reflexivity].
  fold (constructed patient_info procedure days_post_op text file_name notes).
  set (obj0 := constructed _ _ _ _ _ _).
  run_db.
  destruct (Sqlite.insert env obj0 rows0) as [[obj rows]|e]; [|reflexivity].
  run_db.
  destruct (commit_fault env) as [e|]; [reflexivity|].
  run_db.
  destruct (select_fault env) as [e|]; [reflexivity|].
  destruct (RehabPlan.id obj) as [i|]; [|reflexivity].
  destruct (List.find _ rows) as [row|]; reflexivity.
Qed.

#[local] Transparent Sqlite.insert.

Lemma insert_constructed env patient_info procedure days_post_op text file_name notes rows :
  let obj := constructed patient_info procedure days_post_op text file_name notes in
  Sqlite.insert env obj rows =
  if negb (Sqlite.fits_int64 days_post_op) then Raise OverflowError
  else match insert_fault env with
       | Some e => Raise e
       | None =>
           match Sqlite.new_rowid (randomness env) rows with
           | None => Raise OperationalError
           | Some i =>
               Return (inserted env i obj, Sqlite.store_row (inserted env i obj) rows)
           end
       end.
Proof. reflexivity. Qed.

#[local] Opaque Sqlite.insert.

Lemma find_id_Some (rows : list RehabPlan.t) (i : Z) row :
  List.find (fun r => bool_decide (RehabPlan.id r = Some i)) rows = Some row ->
  In row rows /\ RehabPlan.id row = Some i.
Proof.
  intros H. apply find_some in H as [Hin Hid]. split; [assumption|].
  now apply bool_decide_eq_true in Hid.
Qed.

Lemma find_id_None (rows : list RehabPlan.t) (i : Z) :
  List.find (fun r => bool_decide (RehabPlan.id r = Some i)) rows = None ->
  forall r, In r rows -> RehabPlan.id r <> Some i.
Proof.
  intros H r Hin Hid. apply (find_none _ _ H) in Hin.
  apply bool_decide_eq_false in Hin. contradiction.
Qed.

Lemma find_id_stored (rows : list RehabPlan.t) (i : Z) r :
  RehabPlan.id r = Some i ->
  exists row,
    List.find (fun r => bool_decide (RehabPlan.id r = Some i))
              (Sqlite.store_row r rows) = Some row.
Proof.
  intros Hid.
  destruct (List.find _ (Sqlite.store_row r rows)) as [row|] eqn:E; [eauto|].
  exfalso. apply (find_id_None _ _ E r); [|assumption].
  destruct (store_row_split r rows) as (b & a & _ & ->).
  apply in_or_app. right. now left.
Qed.

Lemma insert_outcome_run env obj w :
  insert_outcome env obj w =
  match Sqlite.insert env obj (table w) with
  | Raise e => Raise e
  | Return _ =>
      match commit_fault env with
      | Some e => Raise e
      | None => Return tt
      end
  end.
Proof.
  destruct w as [rows0 out0]. unfold insert_outcome. run_db.
  destruct (Sqlite.insert env obj rows0) as [[obj' rows]|e]; [|reflexivity].
  run_db. destruct (commit_fault env); reflexivity.
Qed.

(** Reading the statistics depends on the table only. *)
Lemma get_stats_run env w :
  get_stats env w =
  match select_fault env with
  | Some e => (Raise e, w)
  | None =>
      (Return (mkStats (length (table w))
                       (dict (Aggregate.group_count (table w)))
                       (Aggregate.avg (map RehabPlan.patient_age (table w)))),
       w)
  end.
Proof.
  destruct w as [rows0 out0]. unfold get_stats, Db.with_session, try_finally.
  run_db. destruct (select_fault env); reflexivity.
Qed.

Lemma get_all_plans_run env w :
  get_all_plans env w =
  match select_fault env with
  | Some e => (Raise e, w)
  | None => (Return (table w), w)
  end.
Proof.
  destruct w as [rows0 out0]. unfold get_all_plans, Db.with_session, try_finally.
  run_db. destruct (select_fault env); reflexivity.
Qed.

Lemma get_plan_by_id_run env plan_id w :
  get_plan_by_id env plan_id w =
  match select_fault env with
  | Some e => (Raise e, w)
  | None =>
      (Return (List.find (fun r => bool_decide (RehabPlan.id r = Some plan_id))
                         (table w)), w)
  end.
Proof.
  destruct w as [rows0 out0]. unfold get_plan_by_id, Db.with_session, try_finally.
  run_db. destruct (select_fault env); reflexivity.
Qed.

(** ** Saving: failure of the insert, failure of the encoder, success *)

Section Save.

Variables (env : Env) (patient_info : gmap string string)
          (procedure : string) (days_post_op : Z) (plan : Json.PyVal)
          (file_name notes : option string) (w : World).

Local Abbreviation save :=
  (save_plan env patient_info procedure days_post_op plan file_name notes w).
Local Abbreviation row_of text :=
  (constructed patient_info procedure days_post_op text file_name notes).

(** C1.  When the insert of [save_plan] (its [db.add] and [db.commit])
    raises, the call returns [None] instead of raising, the table holds
    the rows it held before, the failure and its cause are printed, and
    [get_stats] answers as it did before the call, [total_plans]
    included. *)
Theorem save_plan_insert_failure text e :
  Json.dumps plan = Return text ->
  insert_outcome env (row_of text) w = Raise e ->
  exists w',
    save = (Return None, w') /\
    table w' = table w /\
    stdout w' = stdout w ++ [MsgSaveFailed e] /\
    forall env', (get_stats env' w').1 = (get_stats env' w).1.
Proof.
  intros Hdumps Hfail. exists (failed w e).
  rewrite insert_outcome_run in Hfail.
  rewrite save_plan_run, Hdumps.
  repeat split.
  - destruct (Sqlite.insert env (row_of text) (table w)) as [[obj rows]|e'].
    + destruct (commit_fault env) as [e'|]; [|discriminate].
      now injection Hfail as ->.
    + now injection Hfail as ->.
  - intros env'. rewrite !get_stats_run. now destruct (select_fault env').
Qed.

(** C10.  When [json.dumps] raises on the plan, the call returns [None]
    as it does for a storage failure; nothing is raised to the caller
    and the table holds the rows it held before. *)
Theorem save_plan_unencodable e :
  Json.dumps plan = Raise e ->
  exists w',
    save = (Return None, w') /\
    table w' = table w /\
    stdout w' = stdout w ++ [MsgSaveFailed e].
Proof.
  intros Hdumps. exists (failed w e).
  now rewrite save_plan_run, Hdumps.
Qed.

(** A call that returns an id went through every step. *)
Lemma save_plan_success_inv i w' :
  save = (Return (Some i), w') ->
  exists text,
    Json.dumps plan = Return text /\
    Sqlite.new_rowid (randomness env) (table w) = Some i /\
    w' = mkWorld (Sqlite.store_row (inserted env i (row_of text)) (table w))
                 (stdout w ++ [MsgSaved (Some i)]).
Proof.
  rewrite save_plan_run.
  destruct (Json.dumps plan) as [text|e]; [|discriminate].
  rewrite insert_constructed. cbv zeta.
  destruct (negb (Sqlite.fits_int64 days_post_op)); [discriminate|].
  destruct (insert_fault env); [discriminate|].
  destruct (Sqlite.new_rowid (randomness env) (table w)) as [j|]; [|discriminate].
  destruct (commit_fault env); [discriminate|].
  destruct (select_fault env); [discriminate|].
  change (RehabPlan.id (inserted env j (row_of text))) with (Some j).
  cbv beta iota.
  destruct (List.find (A:=RehabPlan.t) _ _) as [row|] eqn:Hfind; [|discriminate].
  apply find_id_Some in Hfind as [_ Hid]. rewrite Hid.
  intros [= -> <-]. now exists text.
Qed.

(** C2.  A call that returns an id [i] has constructed one instance
    from its arguments and the encoded plan, and the table after the
    call is the table before it with one more row: that instance, with
    the id [i], which no row had before, and the clock's reading.  The
    other rows are as they were; the new row is the last one unless the
    table had used up its rowids. *)
Theorem save_plan_success i w' :
  save = (Return (Some i), w') ->
  exists text row before after,
    Json.dumps plan = Return text /\
    row = inserted env i (row_of text) /\
    RehabPlan.id row = Some i /\
    ~ In i (Sqlite.rowids (table w)) /\
    table w = before ++ after /\
    table w' = before ++ row :: after /\
    ((forall v, Sqlite.last_rowid (table w) = Some v -> v < Sqlite.MAX_ROWID) ->
     after = []).
Proof.
  intros Hsave.
  destruct (save_plan_success_inv _ _ Hsave) as (text & Hdumps & Hnew & ->).
  set (row := inserted env i (row_of text)).
  destruct (store_row_split row (table w)) as (before & after & Hsplit & Hstore).
  assert ((forall v, Sqlite.last_rowid (table w) = Some v -> v < Sqlite.MAX_ROWID) ->
          Sqlite.store_row row (table w) = table w ++ [row]) as Hlast.
  { intros Hroom. apply (store_row_last row (table w) i); [reflexivity|].
    intros j Hj. unfold Sqlite.new_rowid in Hnew.
    destruct (Sqlite.last_rowid (table w)) as [v|] eqn:Hv.
    - specialize (Hroom v eq_refl).
      destruct (v <? Sqlite.MAX_ROWID) eqn:E; [|apply Z.ltb_ge in E; lia].
      injection Hnew as <-.
      pose proof (last_rowid_bound _ _ _ Hv Hj). lia.
    - apply last_rowid_None in Hv. rewrite Hv in Hj. destruct Hj. }
  pose proof (new_rowid_fresh _ _ _ Hnew) as Hfresh.
  destruct (Sqlite.last_rowid (table w)) as [v|] eqn:Hv;
    [destruct (v <? Sqlite.MAX_ROWID) eqn:E|].
  - exists text, row, (table w), []. rewrite app_nil_r.
    repeat split; try assumption. simpl. apply Hlast.
    intros v' [= <-]. now apply Z.ltb_lt.
  - exists text, row, before, after.
    repeat split; try assumption.
    intros Hroom. specialize (Hroom v eq_refl). apply Z.ltb_ge in E. lia.
  - exists text, row, (table w), []. rewrite app_nil_r.
    repeat split; try assumption. simpl. apply Hlast. discriminate.
Qed.

End Save.

(** ** Sequences of calls and the ids they return *)

Section Ids.

Import Sqlite.

Lemma rowids_store_row r rows i j :
  RehabPlan.id r = Some i ->
  In j (rowids (store_row r rows)) <-> j = i \/ In j (rowids rows).
Proof.
  intros Hid. destruct (store_row_split r rows) as (b & a & Hrows & ->).
  rewrite Hrows, !rowids_app, !in_app_iff.
  unfold rowids at 2. simpl. rewrite Hid. simpl. fold (rowids a).
  intuition congruence.
Qed.

(** One call: it returns, and either the table is as before and the
    result is [None], or one row with a rowid not in use was stored and
    the result is that rowid or [None]. *)
Lemma save_call_step c w :
  exists r w',
    save_call c w = (Return r, w') /\
    ((table w' = table w /\ r = None) \/
     (exists i row,
        new_rowid (randomness (call_env c)) (table w) = Some i /\
        RehabPlan.id row = Some i /\
        table w' = store_row row (table w) /\
        (r = Some i \/ r = None))).
Proof.
  unfold save_call. rewrite save_plan_run.
  destruct (Json.dumps (call_plan c)) as [text|e]; [|eauto 8].
  rewrite insert_constructed. cbv zeta.
  destruct (negb _); [eauto 8|].
  destruct (insert_fault _); [eauto 8|].
  destruct (new_rowid _ _) as [i|] eqn:Hnew; [|eauto 8].
  destruct (commit_fault _); [eauto 8|].
  set (row := inserted _ i _).
  assert (RehabPlan.id row = Some i) as Hid by reflexivity.
  destruct (select_fault _); [do 2 eexists; split; [reflexivity|]; right; eauto 8|].
  rewrite Hid. cbv beta iota.
  destruct (List.find (A:=RehabPlan.t) _ _) as [row'|] eqn:Hfind.
  - apply find_id_Some in Hfind as [_ Hid']. rewrite Hid'.
    do 2 eexists; split; [reflexivity|]; right; eauto 8.
  - do 2 eexists; split; [reflexivity|]; right; eauto 8.
Qed.

(** The ids a sequence of calls returns are pairwise distinct, were not
    in the table before, and are in it afterwards. *)
Lemma save_each_distinct calls : forall w results w',
  save_each calls w = (Return results, w') ->
  NoDup (omap (fun r => r) results) /\
  (forall i, In i (omap (fun r => r) results) ->
     ~ In i (rowids (table w)) /\ In i (rowids (table w'))) /\
  (forall i, In i (rowids (table w)) -> In i (rowids (table w'))).
Proof.
  induction calls as [|c calls IH]; intros w results w'; simpl.
  - intros [= <- <-]. simpl. split; [constructor|]. split; [intros i []|auto].
  - unfold mbind, PyM_bind, bind at 1.
    destruct (save_call_step c w) as (r & w1 & Hstep & Hcases). rewrite Hstep.
    unfold bind at 1.
    destruct (save_each calls w1) as [[rs|e] w2] eqn:Hrest; [|discriminate].
    intros [= <- <-]. destruct (IH _ _ _ Hrest) as (Hnd & Hnew & Hmono).
    assert (forall i, In i (rowids (table w)) -> In i (rowids (table w1))) as Hmono1.
    { destruct Hcases as [[-> _]|(i & row & _ & Hid & -> & _)]; [auto|].
      intros j Hj. apply (rowids_store_row _ _ _ _ Hid). now right. }
    destruct r as [i|]; simpl.
    + destruct Hcases as [[_ [=]]|(i' & row & Hrowid & Hid & Htable & [[= <-]|[=]])].
      assert (In i (rowids (table w1))) as Hin1.
      { rewrite Htable. apply (rowids_store_row _ _ _ _ Hid). now left. }
      split; [|split].
      * constructor; [|assumption].
        rewrite list_elem_of_In. intros Hin. apply Hnew in Hin as [Hnot _].
        contradiction.
      * intros j [<-|Hj].
        -- split; [now apply new_rowid_fresh with (randomness (call_env c))|auto].
        -- destruct (Hnew j Hj) as [Hnot Hin]. split; [|assumption].
           intros Hjw. apply Hnot. auto.
      * auto.
    + split; [assumption|]. split; [|auto].
      intros j Hj. destruct (Hnew j Hj) as [Hnot Hin]. split; [|assumption].
      intros Hjw. apply Hnot. auto.
Qed.

Lemma fold_max_in (l : list Z) (a : Z) : In (fold_left Z.max l a) (a :: l).
Proof.
  revert a. induction l as [|x l IH]; intros a; simpl; [now left|].
  destruct (IH (Z.max a x)) as [Heq|Hin]; [|now right; right].
  rewrite <- Heq. destruct (Z.max_spec a x) as [[_ ->]|[_ ->]]; auto.
Qed.

Lemma in_numbers (k : nat) (i : Z) :
  In i (map Z.of_nat (seq 1 k)) <-> 1 <= i <= Z.of_nat k.
Proof.
  rewrite in_map_iff. split.
  - intros (n & <- & Hn). apply in_seq in Hn. lia.
  - intros Hi. exists (Z.to_nat i). split; [lia|]. apply in_seq. lia.
Qed.

Lemma numbered_last k rows :
  numbered k rows -> (0 < k)%nat -> last_rowid rows = Some (Z.of_nat k).
Proof.
  intros Hnum Hk. destruct (last_rowid rows) as [v|] eqn:Hlast.
  - f_equal.
    assert (In v (rowids rows)) as Hv.
    { unfold last_rowid in Hlast. destruct (rowids rows) as [|a l]; [discriminate|].
      injection Hlast as <-. apply fold_max_in. }
    assert (In (Z.of_nat k) (rowids rows)) as Hkin.
    { rewrite Hnum. apply in_numbers. lia. }
    apply (last_rowid_bound _ _ _ Hlast) in Hkin.
    rewrite Hnum in Hv. apply in_numbers in Hv. lia.
  - apply last_rowid_None in Hlast. rewrite Hnum in Hlast.
    destruct k; [lia|discriminate].
Qed.

(** The random candidates lie between 1 and 2^62. *)
Lemma random_candidates_range draws c :
  In c (random_candidates draws) -> 1 <= c <= 2 ^ 62.
Proof.
  unfold random_candidates. rewrite in_map_iff. intros (v & <- & _).
  change (Z.shiftr MAX_ROWID 1) with (Z.ones 62).
  rewrite Z.land_ones by lia.
  pose proof (Z.mod_pos_bound v (2 ^ 62) ltac:(lia)). lia.
Qed.

(** On such a store the table hands out k + 1, or nothing. *)
Lemma numbered_new_rowid k rows draws i :
  numbered k rows -> new_rowid draws rows = Some i -> i = Z.of_nat k + 1.
Proof.
  intros Hnum. unfold new_rowid. destruct k as [|k'].
  - unfold numbered in Hnum. simpl in Hnum. unfold last_rowid. rewrite Hnum.
    now intros [= <-].
  - rewrite (numbered_last _ _ Hnum) by lia.
    destruct (_ <? MAX_ROWID) eqn:E; [now intros [= <-]|].
    apply Z.ltb_ge in E. intros Hfind. exfalso.
    apply find_some in Hfind as [Hc Hfree].
    apply random_candidates_range in Hc.
    apply negb_true_iff in Hfree.
    assert (In i (rowids rows)) as Hin.
    { rewrite Hnum. apply in_numbers. unfold MAX_ROWID in E. lia. }
    apply existsb_eqb_In in Hin. congruence.
Qed.

Lemma numbered_store k rows row :
  numbered k rows -> RehabPlan.id row = Some (Z.of_nat k + 1) ->
  store_row row rows = rows ++ [row] /\ numbered (S k) (store_row row rows).
Proof.
  intros Hnum Hid.
  assert (store_row row rows = rows ++ [row]) as Hst.
  { apply (store_row_last _ _ _ Hid). intros j Hj.
    rewrite Hnum in Hj. apply in_numbers in Hj. lia. }
  split; [assumption|]. rewrite Hst. unfold numbered.
  rewrite rowids_app, Hnum, seq_S, map_app. f_equal.
  unfold rowids. simpl. rewrite Hid. simpl. f_equal. lia.
Qed.

(** On a store that started empty the ids a sequence of calls returns
    are larger than the rowids in use and strictly increasing. *)
Lemma save_each_increasing calls : forall k w results w',
  numbered k (table w) ->
  save_each calls w = (Return results, w') ->
  Forall (fun i => Z.of_nat k < i) (omap (fun r => r) results) /\
  StronglySorted Z.lt (omap (fun r => r) results).
Proof.
  induction calls as [|c calls IH]; intros k w results w' Hnum; simpl.
  - intros [= <- <-]. simpl. split; constructor.
  - unfold mbind, PyM_bind, bind at 1.
    destruct (save_call_step c w) as (r & w1 & Hstep & Hcases). rewrite Hstep.
    unfold bind at 1.
    destruct (save_each calls w1) as [[rs|e] w2] eqn:Hrest; [|discriminate].
    intros [= <- <-].
    destruct Hcases as [[Htable ->]|(i & row & Hrowid & Hid & Htable & Hr)].
    + rewrite <- Htable in Hnum. simpl. exact (IH _ _ _ _ Hnum Hrest).
    + pose proof (numbered_new_rowid _ _ _ _ Hnum Hrowid) as ->.
      destruct (numbered_store _ _ _ Hnum Hid) as [_ Hnum1].
      rewrite <- Htable in Hnum1.
      destruct (IH _ _ _ _ Hnum1 Hrest) as [Hgt Hsorted].
      assert (Forall (fun i => Z.of_nat k < i) (omap (fun r => r) rs)) as Hgt'.
      { eapply Forall_impl; [exact Hgt|]. simpl. intros; lia. }
      destruct Hr as [->| ->]; simpl; [|now split].
      split; constructor; try assumption; try lia.
      eapply Forall_impl; [exact Hgt|]. simpl. intros; lia.
Qed.

End Ids.

(** When the encoder, the storage and the table all cooperate, the call
    returns the id the table hands out. *)
Lemma save_plan_succeeds env patient_info procedure days_post_op plan
    file_name notes w text i :
  Json.dumps plan = Return text ->
  Sqlite.fits_int64 days_post_op = true ->
  insert_fault env = None ->
  commit_fault env = None ->
  select_fault env = None ->
  Sqlite.new_rowid (randomness env) (table w) = Some i ->
  save_plan env patient_info procedure days_post_op plan file_name notes w =
  (Return (Some i),
   mkWorld
     (Sqlite.store_row
        (inserted env i
           (constructed patient_info procedure days_post_op text file_name notes))
        (table w))
     (stdout w ++ [MsgSaved (Some i)])).
Proof.
  intros Hdumps Hfits Hins Hcommit Hselect Hnew.
  rewrite save_plan_run, Hdumps, insert_constructed. cbv zeta.
  rewrite Hfits, Hins, Hnew, Hcommit, Hselect. simpl negb. cbv beta iota.
  set (row := inserted env i _).
  change (RehabPlan.id row) with (Some i). cbv beta iota.
  destruct (find_id_stored (table w) i row eq_refl) as [row' Hfind].
  rewrite Hfind. apply find_id_Some in Hfind as [_ ->]. reflexivity.
Qed.

Lemma save_each_length calls : forall w results w',
  save_each calls w = (Return results, w') -> length results = length calls.
Proof.
  induction calls as [|c calls IH]; intros w results w'; simpl.
  - now intros [= <- <-].
  - unfold mbind, PyM_bind, bind at 1.
    destruct (save_call c w) as [[r|e] w1]; [|discriminate].
    unfold bind at 1.
    destruct (save_each calls w1) as [[rs|e] w2] eqn:Hrest; [|discriminate].
    intros [= <- <-]. simpl. f_equal. exact (IH _ _ _ Hrest).
Qed.

Lemma omap_map_Some (ids : list Z) : omap (fun r => r) (map Some ids) = ids.
Proof.
  induction ids as [|i ids IH]; [reflexivity|].
  change (i :: omap (fun r => r) (map Some ids) = i :: ids). now rewrite IH.
Qed.

(** C6.  When the calls of a sequence all succeed, returning the ids
    [ids], there are as many ids as calls, they are pairwise distinct,
    and on a store that started empty they are strictly increasing. *)
Theorem save_each_ids calls ids w w' :
  save_each calls w = (Return (map Some ids), w') ->
  length ids = length calls /\
  NoDup ids /\
  (table w = [] -> StronglySorted Z.lt ids).
Proof.
  intros Hrun. split; [|split].
  - apply save_each_length in Hrun. now rewrite length_map in Hrun.
  - apply save_each_distinct in Hrun as [Hnd _].
    now rewrite omap_map_Some in Hnd.
  - intros Hempty.
    assert (numbered 0 (table w)) as Hnum by (unfold numbered; now rewrite Hempty).
    destruct (save_each_increasing calls 0 w _ w' Hnum Hrun) as [_ Hsorted].
    now rewrite omap_map_Some in Hsorted.
Qed.

(** ** The saving theorems at concrete calls *)

Lemma save_plan_insert_failure_witness :
  Json.dumps plan_ex = Return (Json.dq "{'phase': 'early', 'weeks': [1, 2]}") /\
  exists w',
    save_plan storage_down info_ex "ACL" 12 plan_ex None None fresh
      = (Return None, w') /\
    table w' = table fresh /\
    stdout w' = stdout fresh ++ [MsgSaveFailed OperationalError] /\
    forall env', (get_stats env' w').1 = (get_stats env' fresh).1.
Proof.
  split; [vm_compute; reflexivity|].
  apply (save_plan_insert_failure storage_down info_ex "ACL" 12 plan_ex None None
           fresh (Json.dq "{'phase': 'early', 'weeks': [1, 2]}") OperationalError);
    vm_compute; reflexivity.
Defined.

Lemma save_plan_unencodable_witness :
  Json.dumps (Json.PyDict [(Json.PyStr (Json.ustr "scan"), Json.PyBytes "raw")]) = Raise TypeError /\
  exists w',
    save_plan (calm 1000) info_ex "ACL" 12
              (Json.PyDict [(Json.PyStr (Json.ustr "scan"), Json.PyBytes "raw")]) None None fresh
      = (Return None, w') /\
    table w' = table fresh /\
    stdout w' = stdout fresh ++ [MsgSaveFailed TypeError].
Proof.
  split; [vm_compute; reflexivity|].
  apply (save_plan_unencodable (calm 1000) info_ex "ACL" 12
           (Json.PyDict [(Json.PyStr (Json.ustr "scan"), Json.PyBytes "raw")]) None None fresh
           TypeError).
  vm_compute; reflexivity.
Defined.

Lemma save_plan_success_witness :
  let w' := (save_plan (calm 1000) info_ex "ACL" 12 plan_ex None None fresh).2 in
  save_plan (calm 1000) info_ex "ACL" 12 plan_ex None None fresh
    = (Return (Some 1), w') /\
  exists text row before after,
    Json.dumps plan_ex = Return text /\
    row = inserted (calm 1000) 1
            (constructed info_ex "ACL" 12 text None None) /\
    RehabPlan.id row = Some 1 /\
    ~ In 1 (Sqlite.rowids (table fresh)) /\
    table fresh = before ++ after /\
    table w' = before ++ row :: after /\
    ((forall v, Sqlite.last_rowid (table fresh) = Some v -> v < Sqlite.MAX_ROWID) ->
     after = []).
Proof.
  intros w'. split; [vm_compute; reflexivity|].
  apply (save_plan_success (calm 1000) info_ex "ACL" 12 plan_ex None None fresh 1 w').
  vm_compute; reflexivity.
Defined.

Lemma save_each_ids_witness :
  let w' := (save_each calls_ex fresh).2 in
  save_each calls_ex fresh = (Return (map Some [1; 2; 3]), w') /\
  length [1; 2; 3] = length calls_ex /\
  NoDup [1; 2; 3] /\
  (table fresh = [] -> StronglySorted Z.lt [1; 2; 3]).
Proof.
  intros w'. split; [vm_compute; reflexivity|].
  apply (save_each_ids calls_ex [1; 2; 3] fresh w').
  vm_compute; reflexivity.
Defined.

(** ** Reading *)



(** C8.  On a store with no rows and with the storage working,
    [get_all_plans] returns the empty list and [get_stats] returns zero
    plans, no procedure and [None] for the average age; neither raises. *)
Theorem empty_store_reads env w :
  table w = [] ->
  select_fault env = None ->
  get_all_plans env w = (Return [], w) /\
  get_stats env w = (Return (mkStats 0 ∅ None), w).
Proof.
  intros Hempty Hselect.
  rewrite get_all_plans_run, get_stats_run, Hselect, Hempty. split; reflexivity.
Qed.

Lemma empty_store_reads_witness :
  table fresh = [] /\
  select_fault (calm 5000) = None /\
  get_all_plans (calm 5000) fresh = (Return [], fresh) /\
  get_stats (calm 5000) fresh = (Return (mkStats 0 ∅ None), fresh).
Proof.
  split; [reflexivity|]. split; [reflexivity|].
  apply (empty_store_reads (calm 5000) fresh); reflexivity.
Defined.

(** ** Histories of the store *)

Lemma run_call_read_only w call :
  match call with CallSave _ => True | _ => table (run_call w call) = table w end.
Proof.
  destruct call as [|c|env|env plan_id|env]; unfold run_call;
    try exact I; try reflexivity.
  - rewrite get_all_plans_run. now destruct (select_fault env).
  - rewrite get_plan_by_id_run. now destruct (select_fault env).
  - rewrite get_stats_run. now destruct (select_fault env).
Qed.

(** A call leaves the table as it is, or it is a [save_plan] that adds
    one row, stamped with the clock's reading of that call. *)
Lemma run_call_table w call :
  table (run_call w call) = table w \/
  exists c row before after,
    call = CallSave c /\
    table w = before ++ after /\
    table (run_call w call) = before ++ row :: after /\
    RehabPlan.created_at row = Some (utcnow (call_env c)).
Proof.
  destruct call as [|c|env|env plan_id|env].
  - left. exact (run_call_read_only w CallInit).
  - unfold run_call, save_call. rewrite save_plan_run.
    destruct (Json.dumps (call_plan c)) as [text|e]; [|now left].
    rewrite insert_constructed. cbv zeta.
    destruct (negb _); [now left|].
    destruct (insert_fault _); [now left|].
    destruct (Sqlite.new_rowid _ _) as [i|]; [|now left].
    destruct (commit_fault _); [now left|].
    set (row := inserted _ i _).
    destruct (store_row_split row (table w)) as (before & after & Hsplit & Hstore).
    right. exists c, row, before, after.
    repeat split; try assumption.
    destruct (select_fault _); [exact Hstore|].
    change (RehabPlan.id row) with (Some i). cbv beta iota.
    destruct (List.find (A:=RehabPlan.t) _ _); exact Hstore.
  - left. exact (run_call_read_only w (CallGetAll env)).
  - left. exact (run_call_read_only w (CallGetById env plan_id)).
  - left. exact (run_call_read_only w (CallGetStats env)).
Qed.

(** C9.  The constructor leaves [created_at] unset; the insert of a
    [save_plan] call sets it to the reading of the clock taken during
    that call; and a row, once in the table, stays in it as it is through
    every later call of the module, so its [created_at] never changes. *)
Theorem created_at_set_once :
  (forall patient_info procedure days_post_op text file_name notes,
     RehabPlan.created_at
       (constructed patient_info procedure days_post_op text file_name notes)
     = None) /\
  (forall w call,
     table (run_call w call) = table w \/
     exists c row before after,
       call = CallSave c /\
       table w = before ++ after /\
       table (run_call w call) = before ++ row :: after /\
       RehabPlan.created_at row = Some (utcnow (call_env c))) /\
  (forall calls w r, In r (table w) -> In r (table (run_calls w calls))).
Proof.
  split; [reflexivity|]. split; [exact run_call_table|].
  induction calls as [|call calls IH]; intros w r Hin; [exact Hin|].
  simpl. apply IH.
  destruct (run_call_table w call)
    as [->|(c & row & before & after & _ & Hw & -> & _)]; [exact Hin|].
  rewrite Hw in Hin. apply in_app_or in Hin as [Hin|Hin];
    apply in_or_app; [now left|now right; right].
Qed.

(** ** Statistics: the counts by procedure *)

Section Groups.

Import Aggregate.

Lemma assoc_None key groups : assoc key groups = None <-> key ∉ groups.*1.
Proof.
  induction groups as [|[k n] groups IH]; simpl.
  - split; [intros _; apply not_elem_of_nil|reflexivity].
  - rewrite not_elem_of_cons. case_bool_decide as Hk.
    + split; [discriminate|]. intros [Hne _]. congruence.
    + rewrite IH. split; [intros H; split; [congruence|exact H]|now intros [_ H]].
Qed.

Lemma group_step_assoc key counted groups k :
  assoc k (group_step key counted groups) =
  if bool_decide (key = k)
  then Some (bump counted (default O (assoc k groups)))
  else assoc k groups.
Proof.
  induction groups as [|[k' n] groups IH]; simpl.
  - repeat case_bool_decide; congruence.
  - destruct (decide (k' = key)) as [->|Hne].
    + rewrite bool_decide_eq_true_2 by reflexivity. simpl.
      repeat case_bool_decide; simpl; congruence.
    + rewrite (bool_decide_eq_false_2 (k' = key)) by assumption. simpl.
      rewrite IH. repeat case_bool_decide; simpl; congruence.
Qed.

Lemma group_step_keys key counted groups :
  (group_step key counted groups).*1 =
  if bool_decide (key ∈ groups.*1) then groups.*1 else groups.*1 ++ [key].
Proof.
  induction groups as [|[k n] groups IH]; simpl.
  - reflexivity.
  - cbn [group_step]. destruct (decide (k = key)) as [->|Hne].
    + rewrite bool_decide_eq_true_2 by reflexivity.
      rewrite !fmap_cons. cbn [fst].
      rewrite bool_decide_eq_true_2; [reflexivity|apply list_elem_of_here].
    + rewrite (bool_decide_eq_false_2 (k = key)) by assumption.
      rewrite !fmap_cons, IH. cbn [fst].
      destruct (decide (key ∈ groups.*1)) as [Hin|Hnotin].
      * rewrite !bool_decide_eq_true_2; [reflexivity| |assumption].
        now apply list_elem_of_further.
      * rewrite !bool_decide_eq_false_2; [reflexivity| |assumption].
        rewrite elem_of_cons. intros [Heq|Hin]; [congruence|contradiction].
Qed.

Lemma group_step_NoDup key counted groups :
  NoDup groups.*1 -> NoDup (group_step key counted groups).*1.
Proof.
  intros Hnd. rewrite group_step_keys. case_bool_decide as Hin; [assumption|].
  apply NoDup_app. split; [assumption|]. split.
  - intros x Hx Hx'. apply list_elem_of_singleton in Hx'. now subst.
  - apply NoDup_singleton.
Qed.

(** [dict] on pairs with distinct keys binds each key to its value. *)
Lemma dict_lookup (groups : list (option string * nat)) k :
  NoDup groups.*1 -> dict groups !! k = assoc k groups.
Proof.
  assert (forall m : gmap (option string) nat,
             NoDup groups.*1 ->
             fold_left (fun m kv => <[kv.1 := kv.2]> m) groups m !! k
             = match assoc k groups with Some v => Some v | None => m !! k end)
    as Hgen.
  { induction groups as [|[k' n] groups IH]; intros m Hnd; simpl; [reflexivity|].
    apply NoDup_cons in Hnd as [Hnotin Hnd]. simpl in Hnotin. rewrite (IH _ Hnd).
    case_bool_decide as Hk.
    - subst k'. apply assoc_None in Hnotin. rewrite Hnotin.
      apply lookup_insert_eq.
    - destruct (assoc k groups); [reflexivity|]. now apply lookup_insert_ne. }
  intros Hnd. unfold dict. rewrite (Hgen _ Hnd).
  destruct (assoc k groups); [reflexivity|apply lookup_empty].
Qed.

Lemma group_fold_assoc rows : forall acc,
  keyed rows -> NoDup acc.*1 ->
  let groups :=
    fold_left
      (fun groups r =>
         group_step (RehabPlan.procedure_identified r)
                    (bool_decide (is_Some (RehabPlan.id r))) groups)
      rows acc in
  NoDup groups.*1 /\
  forall k, assoc k groups =
            match records_with k rows with
            | O => assoc k acc
            | S n => Some (S n + default O (assoc k acc))%nat
            end.
Proof.
  induction rows as [|r rows IH]; intros acc Hkeyed Hnd.
  - now split.
  - apply Forall_cons in Hkeyed as [Hid Hkeyed]. cbn [fold_left].
    rewrite (bool_decide_eq_true_2 _ Hid).
    destruct (IH (group_step (RehabPlan.procedure_identified r) true acc)
                 Hkeyed (group_step_NoDup _ _ _ Hnd)) as [Hnd' Hassoc].
    split; [exact Hnd'|]. intros k. rewrite Hassoc, group_step_assoc.
    assert (records_with k (r :: rows) =
            if bool_decide (RehabPlan.procedure_identified r = k)
            then S (records_with k rows) else records_with k rows) as ->.
    { unfold records_with. simpl. now destruct (bool_decide _). }
    case_bool_decide as Hk; simpl.
    + destruct (records_with k rows); simpl; f_equal; lia.
    + reflexivity.
Qed.

Lemma procedures_lookup rows key :
  keyed rows ->
  dict (group_count rows) !! key =
  match records_with key rows with O => None | n => Some n end.
Proof.
  intros Hkeyed.
  destruct (group_fold_assoc rows [] Hkeyed) as [Hnd Hassoc]; [constructor|].
  unfold group_count. rewrite (dict_lookup _ _ Hnd), Hassoc. simpl.
  destruct (records_with key rows); [reflexivity|]. f_equal. lia.
Qed.

End Groups.

(** Stores built by the module's calls from a keyed store are keyed. *)
Lemma keyed_run_call w call : keyed (table w) -> keyed (table (run_call w call)).
Proof.
  intros Hkeyed. destruct call as [|c|env|env plan_id|env].
  - exact Hkeyed.
  - destruct (save_call_step c w) as (r & w' & Hstep & Hcases).
    unfold run_call. rewrite Hstep. simpl.
    destruct Hcases as [[-> _]|(i & row & _ & Hid & -> & _)]; [exact Hkeyed|].
    destruct (store_row_split row (table w)) as (b & a & Hw & ->).
    unfold keyed in *. rewrite Hw in Hkeyed. apply Forall_app in Hkeyed as [Hb Ha].
    apply Forall_app. split; [exact Hb|]. apply Forall_cons. split; [|exact Ha].
    rewrite Hid. eauto.
  - pose proof (run_call_read_only w (CallGetAll env)) as H.
    cbv beta iota in H. now rewrite H.
  - pose proof (run_call_read_only w (CallGetById env plan_id)) as H.
    cbv beta iota in H. now rewrite H.
  - pose proof (run_call_read_only w (CallGetStats env)) as H.
    cbv beta iota in H. now rewrite H.
Qed.

Lemma keyed_run_calls calls : forall w,
  keyed (table w) -> keyed (table (run_calls w calls)).
Proof.
  induction calls as [|call calls IH]; intros w Hkeyed; [exact Hkeyed|].
  simpl. apply IH. now apply keyed_run_call.
Qed.

Lemma keyed_check rows :
  forallb (fun r => bool_decide (is_Some (RehabPlan.id r))) rows = true ->
  keyed rows.
Proof.
  intros Hall. apply Forall_forall. intros r Hin.
  rewrite forallb_forall in Hall. apply list_elem_of_In in Hin.
  exact (proj1 (bool_decide_eq_true _) (Hall r Hin)).
Qed.

(** C4.  With the storage working and every row carrying its primary
    key, [procedures] binds each procedure to the number of rows bearing
    it, and binds no procedure that no row bears.  After saves with the
    procedures A, A, B on a fresh store it is [{A: 2, B: 1}]. *)
Theorem get_stats_procedures :
  (forall env w,
     select_fault env = None ->
     keyed (table w) ->
     exists st,
       get_stats env w = (Return st, w) /\
       forall key,
         procedures st !! key =
         match records_with key (table w) with O => None | n => Some n end) /\
  (exists st,
     get_stats (calm 4000) store_AAB = (Return st, store_AAB) /\
     procedures st = {[ Some "A"%string := 2%nat; Some "B"%string := 1%nat ]}).
Proof.
  split.
  - intros env w Hselect Hkeyed. rewrite get_stats_run, Hselect.
    eexists. split; [reflexivity|]. intros key. simpl.
    now apply procedures_lookup.
  - rewrite get_stats_run. eexists. split; [reflexivity|].
    vm_compute. reflexivity.
Qed.

Lemma get_stats_procedures_witness :
  select_fault (calm 4000) = None /\
  keyed (table store_AAB) /\
  exists st,
    get_stats (calm 4000) store_AAB = (Return st, store_AAB) /\
    forall key,
      procedures st !! key =
      match records_with key (table store_AAB) with O => None | n => Some n end.
Proof.
  split; [reflexivity|].
  assert (keyed (table store_AAB)) as Hkeyed.
  { apply keyed_check. vm_compute. reflexivity. }
  split; [exact Hkeyed|].
  exact (proj1 get_stats_procedures (calm 4000) store_AAB eq_refl Hkeyed).
Defined.

(** ** Statistics: the average age *)

Section Average.

Import Aggregate.

Local Open Scope Qc_scope.








End Average.




(** ** The decoder reads back what the encoder writes *)

Section RoundTrip.

Import Json.

(** *** Strings *)

(** The checks of [all_below] cover their range. *)
Lemma all_below_spec k : forall base P,
  all_below k base P = true ->
  forall n, (base <= n < base + 2 ^ N.of_nat k)%N -> P n = true.
Proof.
  induction k as [|k IH]; intros base P Hall n Hn.
  - simpl in *. assert (n = base) as -> by lia. exact Hall.
  - cbn [all_below] in Hall. apply andb_true_iff in Hall as [Hlow Hhigh].
    rewrite Nat2N.inj_succ, N.pow_succ_r' in Hn.
    destruct (N.lt_ge_cases n (base + 2 ^ N.of_nat k)) as [Hlt|Hge].
    + apply (IH base P Hlow). lia.
    + apply (IH _ P Hhigh). lia.
Qed.

Lemma hex_digit_decodes_all : all_below 4 0 hex_digit_decodes = true.
Proof. vm_compute. reflexivity. Qed.

Lemma hex_value_digit d : (d < 16)%N -> hex_value (hex_digit d) = Some d.
Proof.
  intros Hd.
  pose proof (all_below_spec 4 0 hex_digit_decodes hex_digit_decodes_all d) as H.
  unfold hex_digit_decodes in H.
  destruct (hex_value (hex_digit d)) as [m|]; [|discriminate H; simpl; lia].
  f_equal. apply N.eqb_eq, H. simpl. lia.
Qed.

(** The four digits of a number below 0x10000 decode to it. *)
Lemma decode_hex4 n :
  (n < 65536)%N ->
  decode_uXXXX (hex_digit (n / 4096)) (hex_digit (n / 256 mod 16))
               (hex_digit (n / 16 mod 16)) (hex_digit (n mod 16)) = Some n.
Proof.
  intros Hn. unfold decode_uXXXX.
  assert (n / 4096 < 16)%N by (apply N.Div0.div_lt_upper_bound; lia).
  rewrite !hex_value_digit by (assumption || (apply N.mod_upper_bound; lia)).
  f_equal.
  pose proof (N.div_mod n 16 ltac:(lia)).
  pose proof (N.div_mod (n / 16) 16 ltac:(lia)).
  pose proof (N.div_mod (n / 256) 16 ltac:(lia)).
  assert (n / 16 / 16 = n / 256)%N by (rewrite N.Div0.div_div; reflexivity).
  assert (n / 256 / 16 = n / 4096)%N by (rewrite N.Div0.div_div; reflexivity).
  pose proof (N.mod_small (n / 4096) 16 ltac:(lia)).
  lia.
Qed.

Lemma surrogate_base_free_all : all_below 10 0 surrogate_base_free = true.
Proof. vm_compute. reflexivity. Qed.

Lemma surrogate_base h :
  (h < 1024)%N ->
  (N.lor 55296 h = 55296 + h)%N /\ (N.lor 56320 h = 56320 + h)%N.
Proof.
  intros Hh.
  pose proof (all_below_spec 10 0 surrogate_base_free surrogate_base_free_all h) as H.
  unfold surrogate_base_free in H. rewrite andb_true_iff, !N.eqb_eq in H.
  apply H. simpl. lia.
Qed.

Lemma land_shiftl_low hi lo : (lo < 1024)%N -> N.land (N.shiftl hi 10) lo = 0%N.
Proof.
  intros Hlo. apply N.bits_inj_0. intros n. rewrite N.land_spec.
  destruct (N.lt_ge_cases n 10) as [Hn|Hn].
  - now rewrite N.shiftl_spec_low.
  - rewrite andb_false_iff. right.
    rewrite <- (N.mod_small lo (2 ^ 10)) by (simpl; lia).
    now apply N.mod_pow2_bits_high.
Qed.

Lemma lor_shiftl_low hi lo :
  (lo < 1024)%N -> (N.lor (N.shiftl hi 10) lo = hi * 1024 + lo)%N.
Proof.
  intros Hlo. rewrite <- N.lxor_lor by now apply land_shiftl_low.
  rewrite <- N.add_nocarry_lxor by now apply land_shiftl_low.
  now rewrite N.shiftl_mul_pow2.
Qed.

(** The surrogate pair of a code point joins back to it. *)
Lemma surrogate_pair v :
  (v < 1048576)%N ->
  is_high_surrogate (high_of v) = true /\
  is_low_surrogate (low_of v) = true /\
  (65536 + N.lor (N.shiftl (high_of v - 55296) 10) (low_of v - 56320)
   = v + 65536)%N.
Proof.
  intros Hv. unfold high_of, low_of.
  assert (v / 1024 < 1024)%N as Hhi by (apply N.Div0.div_lt_upper_bound; lia).
  assert (v mod 1024 < 1024)%N as Hlo by (apply N.mod_upper_bound; lia).
  change 1023%N with (N.ones 10). rewrite !N.land_ones, N.shiftr_div_pow2.
  change (2 ^ 10)%N with 1024%N. rewrite (N.mod_small (v / 1024)) by assumption.
  destruct (surrogate_base _ Hhi) as [-> _].
  destruct (surrogate_base _ Hlo) as [_ ->].
  unfold is_high_surrogate, is_low_surrogate.
  rewrite !andb_true_iff, !N.leb_le.
  rewrite (N.add_comm 55296 (v / 1024)), (N.add_comm 56320 (v mod 1024)).
  rewrite !N.add_sub, (lor_shiftl_low _ _ Hlo).
  pose proof (N.div_mod v 1024 ltac:(lia)) as Hdiv.
  set (hi := (v / 1024)%N) in *. set (lo := (v mod 1024)%N) in *.
  clearbody hi lo. lia.
Qed.

Lemma surrogate_bounds n :
  (is_high_surrogate n = true -> (55296 <= n <= 56319)%N) /\
  (is_low_surrogate n = true -> (56320 <= n <= 57343)%N).
Proof.
  unfold is_high_surrogate, is_low_surrogate.
  rewrite !andb_true_iff, !N.leb_le. tauto.
Qed.

(** The scanner on an escape [\uXXXX]. *)
Lemma scanstring_u h1 h2 h3 h4 X uni :
  decode_uXXXX h1 h2 h3 h4 = Some uni ->
  is_high_surrogate uni = false ->
  scanstring (BACKSLASH :: "u"%char :: h1 :: h2 :: h3 :: h4 :: X)
  = cons_char uni (scanstring X).
Proof.
  intros Hdec Hhigh.
  change (scanstring (BACKSLASH :: "u"%char :: h1 :: h2 :: h3 :: h4 :: X))
    with (match decode_uXXXX h1 h2 h3 h4 with
          | None => None
          | Some uni =>
              if is_high_surrogate uni then
                match X with
                | "092"%char :: "u"%char :: l1 :: l2 :: l3 :: l4 :: r3 =>
                    match decode_uXXXX l1 l2 l3 l4 with
                    | None => None
                    | Some uni2 =>
                        if is_low_surrogate uni2 then
                          cons_char
                            (65536 + N.lor (N.shiftl (uni - 55296) 10)
                                           (uni2 - 56320))%N
                            (scanstring r3)
                        else cons_char uni (scanstring X)
                    end
                | _ => cons_char uni (scanstring X)
                end
              else cons_char uni (scanstring X)
          end).
  now rewrite Hdec, Hhigh.
Qed.

(** The scanner on the two escapes of a surrogate pair. *)
Lemma scanstring_u_pair h1 h2 h3 h4 l1 l2 l3 l4 X uni uni2 :
  decode_uXXXX h1 h2 h3 h4 = Some uni ->
  decode_uXXXX l1 l2 l3 l4 = Some uni2 ->
  is_high_surrogate uni = true ->
  scanstring (BACKSLASH :: "u"%char :: h1 :: h2 :: h3 :: h4
                :: BACKSLASH :: "u"%char :: l1 :: l2 :: l3 :: l4 :: X)
  = if is_low_surrogate uni2 then
      cons_char (65536 + N.lor (N.shiftl (uni - 55296) 10) (uni2 - 56320))%N
                (scanstring X)
    else
      cons_char uni
        (scanstring (BACKSLASH :: "u"%char :: l1 :: l2 :: l3 :: l4 :: X)).
Proof.
  intros Hdec Hdec2 Hhigh.
  change (scanstring (BACKSLASH :: "u"%char :: h1 :: h2 :: h3 :: h4
                        :: BACKSLASH :: "u"%char :: l1 :: l2 :: l3 :: l4 :: X))
    with (match decode_uXXXX h1 h2 h3 h4 with
          | None => None
          | Some uni =>
              if is_high_surrogate uni then
                match decode_uXXXX l1 l2 l3 l4 with
                | None => None
                | Some uni2 =>
                    if is_low_surrogate uni2 then
                      cons_char
                        (65536 + N.lor (N.shiftl (uni - 55296) 10)
                                       (uni2 - 56320))%N
                        (scanstring X)
                    else
                      cons_char uni
                        (scanstring (BACKSLASH :: "u"%char :: l1 :: l2 :: l3
                                       :: l4 :: X))
                end
              else
                cons_char uni
                  (scanstring (BACKSLASH :: "u"%char :: l1 :: l2 :: l3
                                 :: l4 :: X))
          end).
  now rewrite Hdec, Hdec2, Hhigh.
Qed.

(** The scanner on a character that stands for itself. *)
Lemma scanstring_literal (a : ascii) X :
  N_of_ascii a <> 34%N -> N_of_ascii a <> 92%N ->
  (32 <= N_of_ascii a < 128)%N ->
  scanstring (a :: X) = cons_char (N_of_ascii a) (scanstring X).
Proof.
  destruct a as [[] [] [] [] [] [] [] []]; simpl N_of_ascii; intros H34 H92 Hr;
    first [reflexivity | exfalso; lia].
Qed.

(** Decide the comparisons of [escape_char] one after the other. *)
Ltac escape_cases n :=
  unfold escape_char;
  destruct (N.eqb_spec n 92) as [->|?]; [|
  destruct (N.eqb_spec n 34) as [->|?]; [|
  destruct (N.eqb_spec n 8) as [->|?]; [|
  destruct (N.eqb_spec n 12) as [->|?]; [|
  destruct (N.eqb_spec n 10) as [->|?]; [|
  destruct (N.eqb_spec n 13) as [->|?]; [|
  destruct (N.eqb_spec n 9) as [->|?]; [|
  destruct (N.leb_spec 32 n); [destruct (N.leb_spec n 126)|]; cbn [andb];
  [|destruct (N.ltb_spec n 65536)|destruct (N.ltb_spec n 65536)]]]]]]]].

(** A code point that is no high surrogate is read back whatever
    follows its escape. *)
Lemma scanstring_escape_plain n X :
  (n < 1114112)%N ->
  is_high_surrogate n = false ->
  scanstring (escape_char n ++ X) = cons_char n (scanstring X).
Proof.
  intros Hn Hhigh. escape_cases n; try reflexivity.
  - cbn [app]. rewrite scanstring_literal; rewrite N_ascii_embedding by lia;
      [reflexivity|assumption|assumption|lia].
  - cbn [app hex4]. apply scanstring_u; [apply decode_hex4; lia|exact Hhigh].
  - destruct (surrogate_pair (n - 65536)) as (Hh & Hl & Hjoin); [lia|].
    cbv zeta. fold (high_of (n - 65536)) (low_of (n - 65536)).
    cbn [app hex4]. 
    pose proof (proj1 (surrogate_bounds _) Hh).
    pose proof (proj2 (surrogate_bounds _) Hl).
    rewrite (scanstring_u_pair _ _ _ _ _ _ _ _ X (high_of (n - 65536))
               (low_of (n - 65536)));
      [|apply decode_hex4; lia|apply decode_hex4; lia|exact Hh].
    rewrite Hl, Hjoin. f_equal. lia.
  - cbn [app hex4]. apply scanstring_u; [apply decode_hex4; lia|exact Hhigh].
  - exfalso. lia.
Qed.

Lemma plain_next_first (a : ascii) X :
  N_of_ascii a <> 92%N -> plain_next (a :: X).
Proof.
  intros Ha h1 h2 h3 h4 uni Hdec.
  destruct (is_high_surrogate uni) eqn:Hhigh; [|now apply scanstring_u].
  change (scanstring (BACKSLASH :: "u"%char :: h1 :: h2 :: h3 :: h4 :: a :: X))
    with (match decode_uXXXX h1 h2 h3 h4 with
          | None => None
          | Some uni =>
              if is_high_surrogate uni then
                match a :: X with
                | "092"%char :: "u"%char :: l1 :: l2 :: l3 :: l4 :: r3 =>
                    match decode_uXXXX l1 l2 l3 l4 with
                    | None => None
                    | Some uni2 =>
                        if is_low_surrogate uni2 then
                          cons_char
                            (65536 + N.lor (N.shiftl (uni - 55296) 10)
                                           (uni2 - 56320))%N
                            (scanstring r3)
                        else cons_char uni (scanstring (a :: X))
                    end
                | _ => cons_char uni (scanstring (a :: X))
                end
              else cons_char uni (scanstring (a :: X))
          end).
  rewrite Hdec, Hhigh.
  destruct a as [[] [] [] [] [] [] [] []]; try reflexivity.
  exfalso. now apply Ha.
Qed.

Lemma plain_next_second (a : ascii) X :
  a <> "u"%char -> plain_next (BACKSLASH :: a :: X).
Proof.
  intros Ha h1 h2 h3 h4 uni Hdec.
  destruct (is_high_surrogate uni) eqn:Hhigh; [|now apply scanstring_u].
  change (scanstring (BACKSLASH :: "u"%char :: h1 :: h2 :: h3 :: h4
                        :: BACKSLASH :: a :: X))
    with (match decode_uXXXX h1 h2 h3 h4 with
          | None => None
          | Some uni =>
              if is_high_surrogate uni then
                match BACKSLASH :: a :: X with
                | "092"%char :: "u"%char :: l1 :: l2 :: l3 :: l4 :: r3 =>
                    match decode_uXXXX l1 l2 l3 l4 with
                    | None => None
                    | Some uni2 =>
                        if is_low_surrogate uni2 then
                          cons_char
                            (65536 + N.lor (N.shiftl (uni - 55296) 10)
                                           (uni2 - 56320))%N
                            (scanstring r3)
                        else cons_char uni (scanstring (BACKSLASH :: a :: X))
                    end
                | _ => cons_char uni (scanstring (BACKSLASH :: a :: X))
                end
              else cons_char uni (scanstring (BACKSLASH :: a :: X))
          end).
  rewrite Hdec, Hhigh.
  destruct a as [[] [] [] [] [] [] [] []]; try reflexivity.
  exfalso. now apply Ha.
Qed.

Lemma plain_next_u l1 l2 l3 l4 X uni2 :
  decode_uXXXX l1 l2 l3 l4 = Some uni2 ->
  is_low_surrogate uni2 = false ->
  plain_next (BACKSLASH :: "u"%char :: l1 :: l2 :: l3 :: l4 :: X).
Proof.
  intros Hdec2 Hlow h1 h2 h3 h4 uni Hdec.
  destruct (is_high_surrogate uni) eqn:Hhigh; [|now apply scanstring_u].
  rewrite (scanstring_u_pair _ _ _ _ _ _ _ _ X uni uni2 Hdec Hdec2 Hhigh).
  now rewrite Hlow.
Qed.

(** The escape of a code point that is no low surrogate may follow. *)
Lemma plain_next_escape n Y :
  (n < 1114112)%N ->
  is_low_surrogate n = false ->
  plain_next (escape_char n ++ Y).
Proof.
  intros Hn Hlow. escape_cases n;
    try (apply plain_next_second; discriminate).
  - cbn [app]. apply plain_next_first. rewrite N_ascii_embedding by lia.
    assumption.
  - cbn [app hex4]. apply (plain_next_u _ _ _ _ _ n); [apply decode_hex4; lia|].
    exact Hlow.
  - destruct (surrogate_pair (n - 65536)) as (Hh & Hl & Hjoin); [lia|].
    cbv zeta. fold (high_of (n - 65536)) (low_of (n - 65536)).
    cbn [app hex4].
    pose proof (proj1 (surrogate_bounds _) Hh).
    apply (plain_next_u _ _ _ _ _ (high_of (n - 65536)));
      [apply decode_hex4; lia|].
    unfold is_low_surrogate. apply andb_false_iff. left. apply N.leb_gt. lia.
  - cbn [app hex4]. apply (plain_next_u _ _ _ _ _ n); [apply decode_hex4; lia|].
    exact Hlow.
  - exfalso. lia.
Qed.

(** A lone high surrogate is read back when what follows is plain. *)
Lemma scanstring_escape_high n X :
  is_high_surrogate n = true ->
  plain_next X ->
  scanstring (escape_char n ++ X) = cons_char n (scanstring X).
Proof.
  intros Hhigh Hnext. pose proof (proj1 (surrogate_bounds n) Hhigh) as Hr.
  escape_cases n; try (exfalso; lia).
  cbn [app hex4]. apply Hnext. apply decode_hex4. lia.
Qed.

Lemma scanstring_escape_chars s rest :
  str_ok s = true ->
  scanstring (escape_chars s ++ DQUOTE :: rest) = Some (s, rest).
Proof.
  induction s as [|c s IH]; intros Hok; [reflexivity|].
  cbn [str_ok] in Hok. rewrite !andb_true_iff in Hok.
  destruct Hok as [[Hc Hpair] Hs]. apply N.ltb_lt in Hc.
  cbn [escape_chars]. rewrite <- app_assoc.
  destruct (is_high_surrogate c) eqn:Hhigh.
  - rewrite scanstring_escape_high; [now rewrite (IH Hs)|exact Hhigh|].
    destruct s as [|c' s'].
    + apply plain_next_first. discriminate.
    + cbn [escape_chars]. rewrite <- app_assoc.
      cbn [str_ok] in Hs. rewrite !andb_true_iff in Hs.
      destruct Hs as [[Hc' _] _]. apply N.ltb_lt in Hc'.
      apply plain_next_escape; [exact Hc'|].
      cbn [andb] in Hpair. now apply negb_true_iff in Hpair.
  - rewrite scanstring_escape_plain; [now rewrite (IH Hs)|exact Hc|exact Hhigh].
Qed.

Lemma scanstring_encoded s rest :
  str_ok s = true ->
  exists t, encode_basestring_ascii s ++ rest = DQUOTE :: t /\
            scanstring t = Some (s, rest).
Proof.
  intros Hok. exists (escape_chars s ++ DQUOTE :: rest). split.
  - unfold encode_basestring_ascii. cbn [app]. now rewrite <- app_assoc.
  - now apply scanstring_escape_chars.
Qed.

(** *** Integers *)

Lemma delimited_no_digit rest :
  delimited rest = true ->
  read_uint rest = (Decimal.Nil, rest) /\ float_follows rest = false.
Proof.
  destruct rest as [|c rest]; [now split|]. simpl delimited.
  rewrite !orb_true_iff, !Ascii.eqb_eq. intros [[-> | ->] | ->]; now split.
Qed.

Lemma read_uint_digits d rest :
  delimited rest = true -> read_uint (uint_digits d ++ rest) = (d, rest).
Proof.
  intros Hrest. induction d; cbn [uint_digits app read_uint digit_cons];
    try (rewrite IHd; reflexivity).
  apply (delimited_no_digit _ Hrest).
Qed.

(** The digits of a positive number do not start with 0. *)
Lemma to_uint_head p :
  match Pos.to_uint p with
  | Decimal.Nil | Decimal.D0 _ => False
  | _ => True
  end.
Proof.
  pose proof (DecimalPos.Unsigned.to_uint_nonnil p) as Hnil.
  pose proof (DecimalPos.Unsigned.to_of (Pos.to_uint p)) as Hnorm.
  rewrite DecimalPos.Unsigned.of_to in Hnorm. simpl N.to_uint in Hnorm.
  destruct (Pos.to_uint p) as [|d| | | | | | | | |] eqn:E; try exact I.
  - congruence.
  - unfold Decimal.unorm in Hnorm. simpl Decimal.nzhead in Hnorm.
    pose proof (DecimalFacts.nb_digits_nzhead d) as Hlen.
    destruct (Decimal.nzhead d) eqn:Hd; try discriminate Hnorm.
    + injection Hnorm as ->.
      now apply (DecimalPos.Unsigned.to_uint_nonzero p).
    + injection Hnorm as ->. simpl in Hlen. lia.
Qed.

Lemma read_integer_digits (d : Decimal.uint) rest :
  match d with Decimal.Nil | Decimal.D0 _ => False | _ => True end ->
  delimited rest = true ->
  read_integer (uint_digits d ++ rest) = Some (d, rest).
Proof.
  intros Hhead Hrest.
  destruct d; try contradiction;
    cbn [uint_digits app]; unfold read_integer;
    cbn [is_digit digit_cons read_uint];
    now rewrite (read_uint_digits _ _ Hrest).
Qed.

Lemma scan_number_repr n rest :
  delimited rest = true ->
  scan_number (int_repr n ++ rest) = Some (PyInt n, rest).
Proof.
  intros Hrest. unfold int_repr.
  pose proof (DecimalZ.of_to n) as Hn.
  destruct n as [|p|p]; cbn [Z.to_int] in *.
  - cbn. now rewrite (proj2 (delimited_no_digit _ Hrest)).
  - pose proof (to_uint_head p) as Hhead.
    unfold scan_number.
    assert (read_minus (uint_digits (Pos.to_uint p) ++ rest)
            = (false, uint_digits (Pos.to_uint p) ++ rest)) as ->.
    { destruct (Pos.to_uint p); try contradiction; reflexivity. }
    rewrite (read_integer_digits _ _ Hhead Hrest).
    rewrite (proj2 (delimited_no_digit _ Hrest)). now rewrite Hn.
  - pose proof (to_uint_head p) as Hhead.
    unfold scan_number. cbn [app read_minus].
    rewrite (read_integer_digits _ _ Hhead Hrest).
    rewrite (proj2 (delimited_no_digit _ Hrest)). now rewrite Hn.
Qed.

(** *** Values *)

(** Induction on values, through the lists they contain. *)
Section PyVal_induction.

Variable P : PyVal -> Prop.
Hypothesis HNone : P PyNone.
Hypothesis HBool : forall b, P (PyBool b).
Hypothesis HInt : forall n, P (PyInt n).
Hypothesis HStr : forall s, P (PyStr s).
Hypothesis HList : forall xs, List.Forall P xs -> P (PyList xs).
Hypothesis HTuple : forall xs, List.Forall P xs -> P (PyTuple xs).
Hypothesis HDict :
  forall items, List.Forall (fun kv => P (snd kv)) items -> P (PyDict items).
Hypothesis HBytes : forall b, P (PyBytes b).

Fixpoint PyVal_nested_ind (v : PyVal) : P v :=
  match v with
  | PyNone => HNone
  | PyBool b => HBool b
  | PyInt n => HInt n
  | PyStr s => HStr s
  | PyList xs =>
      HList xs
        ((fix all (l : list PyVal) : List.Forall P l :=
            match l with
            | [] => @List.Forall_nil _ P
            | x :: l' => @List.Forall_cons _ P x l' (PyVal_nested_ind x) (all l')
            end) xs)
  | PyTuple xs =>
      HTuple xs
        ((fix all (l : list PyVal) : List.Forall P l :=
            match l with
            | [] => @List.Forall_nil _ P
            | x :: l' => @List.Forall_cons _ P x l' (PyVal_nested_ind x) (all l')
            end) xs)
  | PyDict items =>
      HDict items
        ((fix all (l : list (PyVal * PyVal))
            : List.Forall (fun kv => P (snd kv)) l :=
            match l with
            | [] => @List.Forall_nil _ _
            | kv :: l' =>
                @List.Forall_cons _ (fun kv => P (snd kv)) kv l'
                  (PyVal_nested_ind (snd kv)) (all l')
            end) items)
  | PyBytes b => HBytes b
  end.

End PyVal_induction.

Lemma encode_PyList xs :
  encode (PyList xs) =
  match encode_all xs with
  | Raise e => Raise e
  | Return ts => Return ("["%char :: join_comma ts ++ ["]"%char])
  end.
Proof.
  cbn [encode].
  match goal with
  | |- match ?f xs with _ => _ end = _ =>
      assert (forall l, f l = encode_all l) as ->; [|reflexivity]
  end.
  induction l as [|x l IH]; [reflexivity|].
  cbn [encode_all]. rewrite <- IH. reflexivity.
Qed.

Lemma encode_PyDict items :
  encode (PyDict items) =
  match encode_pairs items with
  | Raise e => Raise e
  | Return ts => Return ("{"%char :: join_comma ts ++ ["}"%char])
  end.
Proof.
  cbn [encode].
  match goal with
  | |- match ?f items with _ => _ end = _ =>
      assert (forall l, f l = encode_pairs l) as ->; [|reflexivity]
  end.
  induction l as [|[k v] l IH]; [reflexivity|].
  cbn [encode_pairs]. rewrite <- IH. reflexivity.
Qed.

Lemma head_ok_app t s : head_ok t = true -> head_ok (t ++ s) = true.
Proof. destruct t; [discriminate|exact (fun H => H)]. Qed.

Lemma head_ok_skip_ws t : head_ok t = true -> skip_ws t = t.
Proof.
  destruct t as [|c t]; [reflexivity|]. simpl.
  rewrite andb_true_iff, negb_true_iff. now intros [-> _].
Qed.

Lemma head_ok_length t : head_ok t = true -> (1 <= length t)%nat.
Proof. destruct t; [discriminate|simpl; lia]. Qed.

Lemma int_repr_head n :
  exists c r, int_repr n = c :: r /\ (c = "-"%char \/ is_digit c = true).
Proof.
  unfold int_repr. destruct n as [|p|p]; cbn [Z.to_int].
  - exists "0"%char, []. split; [reflexivity|now right].
  - pose proof (to_uint_head p) as Hhead.
    destruct (Pos.to_uint p); try contradiction;
      cbn [uint_digits]; do 2 eexists; (split; [reflexivity|now right]).
  - do 2 eexists. split; [reflexivity|now left].
Qed.

Lemma number_head c :
  c = "-"%char \/ is_digit c = true ->
  forall s, head_ok (c :: s) = true /\
            forall f, scan_once (S f) (c :: s) = scan_number (c :: s).
Proof.
  destruct c as [[] [] [] [] [] [] [] []]; intros [H|H]; try discriminate H;
    intros s; split; reflexivity.
Qed.

Lemma encode_head v t : encode v = Return t -> head_ok t = true.
Proof.
  destruct v as [|[]|n|s|xs|xs|items|b]; cbn [encode];
    try (intros [= <-]; reflexivity); try discriminate.
  - intros [= <-]. destruct (int_repr_head n) as (c & r & -> & Hc).
    apply (number_head c Hc r).
  - match goal with |- match ?e with _ => _ end = _ -> _ => destruct e end;
      [intros [= <-]; reflexivity|discriminate].
  - match goal with |- match ?e with _ => _ end = _ -> _ => destruct e end;
      [intros [= <-]; reflexivity|discriminate].
  - match goal with |- match ?e with _ => _ end = _ -> _ => destruct e end;
      [intros [= <-]; reflexivity|discriminate].
Qed.

Lemma join_comma_cons t ts :
  join_comma (t :: ts) =
  match ts with
  | [] => t
  | _ :: _ => t ++ ","%char :: " "%char :: join_comma ts
  end.
Proof. destruct ts; reflexivity. Qed.

Lemma join_comma_head t ts : head_ok t = true -> head_ok (join_comma (t :: ts)) = true.
Proof.
  intros Ht. rewrite join_comma_cons. destruct ts; [exact Ht|].
  now apply head_ok_app.
Qed.

Lemma join_comma_length ts :
  List.Forall (fun t => head_ok t = true) ts -> (length ts <= length (join_comma ts))%nat.
Proof.
  induction 1 as [|t ts Ht _ IH]; [simpl; lia|].
  rewrite join_comma_cons. apply head_ok_length in Ht.
  destruct ts as [|t' ts']; [simpl; lia|].
  rewrite length_app. simpl length in *. lia.
Qed.

Lemma encode_all_heads xs : forall ts,
  encode_all xs = Return ts ->
  length ts = length xs /\ List.Forall (fun t => head_ok t = true) ts.
Proof.
  induction xs as [|x xs IH]; intros ts; cbn [encode_all].
  - intros [= <-]. split; [reflexivity|constructor].
  - destruct (encode x) as [t|] eqn:Ex; [|discriminate].
    destruct (encode_all xs) as [ts'|]; [|discriminate].
    intros [= <-]. destruct (IH ts' eq_refl) as [Hlen Hall].
    split; [simpl; now rewrite Hlen|].
    constructor; [exact (encode_head _ _ Ex)|exact Hall].
Qed.

Lemma array_items_encoded f xs : forall ts n rest,
  List.Forall (reads_back f) xs ->
  encode_all xs = Return ts ->
  xs <> [] ->
  (length xs <= n)%nat ->
  array_items (scan_once f) n (join_comma ts ++ "]"%char :: rest)
  = Some (xs, rest).
Proof.
  induction xs as [|x xs IH]; intros ts n rest Hall Henc Hne Hlen;
    [contradiction|].
  cbn [encode_all] in Henc.
  destruct (encode x) as [t|] eqn:Ex; [|discriminate].
  destruct (encode_all xs) as [ts'|] eqn:Exs; [|discriminate].
  injection Henc as <-.
  destruct n as [|n]; [simpl in Hlen; lia|]. cbn [array_items].
  apply List.Forall_cons_iff in Hall as [Hx Hxs].
  rewrite join_comma_cons.
  destruct xs as [|x' xs'].
  - cbn [encode_all] in Exs. injection Exs as <-.
    rewrite (Hx t ("]"%char :: rest) Ex eq_refl). reflexivity.
  - destruct (encode_all_heads _ _ Exs) as [Hlen' Hheads].
    destruct ts' as [|t' ts'']; [discriminate Hlen'|].
    rewrite <- app_assoc. cbn [app].
    rewrite (Hx t (","%char :: " "%char :: join_comma (t' :: ts'')
                        ++ "]"%char :: rest) Ex eq_refl).
    change (skip_ws (","%char :: " "%char :: join_comma (t' :: ts'') ++ "]"%char :: rest))
      with (","%char :: " "%char :: join_comma (t' :: ts'') ++ "]"%char :: rest).
    cbv beta iota.
    change (skip_ws (" "%char :: join_comma (t' :: ts'') ++ "]"%char :: rest))
      with (skip_ws (join_comma (t' :: ts'') ++ "]"%char :: rest)).
    rewrite head_ok_skip_ws.
    + rewrite (IH (t' :: ts'') n rest Hxs eq_refl); [reflexivity|discriminate|].
      simpl in Hlen |- *. lia.
    + apply head_ok_app, join_comma_head.
      now apply List.Forall_cons_iff in Hheads as [Ht' _].
Qed.

Lemma encode_pairs_heads items : forall ts,
  encode_pairs items = Return ts ->
  length ts = length items /\ List.Forall (fun t => head_ok t = true) ts.
Proof.
  induction items as [|[k v] items IH]; intros ts; cbn [encode_pairs].
  - intros [= <-]. split; [reflexivity|constructor].
  - destruct (encode_key k) as [ks|]; [|discriminate].
    destruct (encode v) as [t|]; [|discriminate].
    destruct (encode_pairs items) as [ts'|]; [|discriminate].
    intros [= <-]. destruct (IH ts' eq_refl) as [Hlen Hall].
    split; [simpl; now rewrite Hlen|]. constructor; [reflexivity|exact Hall].
Qed.

Lemma object_items_encoded f items : forall ts n rest,
  List.Forall (fun kv => reads_back f (snd kv)) items ->
  forallb (fun kv => is_str (fst kv)) items = true ->
  encode_pairs items = Return ts ->
  items <> [] ->
  (length items <= n)%nat ->
  exists tail,
    join_comma ts ++ "}"%char :: rest = DQUOTE :: tail /\
    object_items (scan_once f) n tail = Some (items, rest).
Proof.
  induction items as [|[k v] items IH]; intros ts n rest Hall Hstr Henc Hne Hlen;
    [contradiction|].
  cbn [forallb fst] in Hstr. apply andb_true_iff in Hstr as [Hk Hstr].
  destruct k as [| | |ks| | | |]; try discriminate Hk.
  cbn [encode_pairs encode_key] in Henc.
  destruct (encode v) as [tv|] eqn:Ev; [|discriminate].
  destruct (encode_pairs items) as [ts'|] eqn:Eitems; [|discriminate].
  injection Henc as <-.
  destruct n as [|n]; [simpl in Hlen; lia|].
  apply List.Forall_cons_iff in Hall as [Hv Hitems]. cbn [snd] in Hv.
  pose proof (encode_head _ _ Ev) as Htv.
  rewrite join_comma_cons. unfold encode_basestring_ascii.
  destruct items as [|kv' items'].
  - cbn [encode_pairs] in Eitems. injection Eitems as <-.
    exists (escape_chars ks ++ DQUOTE :: ":"%char :: " "%char :: tv ++ "}"%char :: rest).
    split; [repeat first [rewrite <- app_assoc | progress cbn [app]]; reflexivity|].
    cbn [object_items]. rewrite (scanstring_escape_chars _ _ Hk).
    change (skip_ws (":"%char :: " "%char :: tv ++ "}"%char :: rest))
      with (":"%char :: " "%char :: tv ++ "}"%char :: rest).
    cbv beta iota.
    change (skip_ws (" "%char :: tv ++ "}"%char :: rest))
      with (skip_ws (tv ++ "}"%char :: rest)).
    rewrite (head_ok_skip_ws _ (head_ok_app _ _ Htv)).
    rewrite (Hv tv ("}"%char :: rest) Ev eq_refl). reflexivity.
  - destruct (encode_pairs_heads _ _ Eitems) as [Hlen' _].
    destruct ts' as [|t' ts'']; [discriminate Hlen'|].
    destruct (IH (t' :: ts'') n rest Hitems Hstr eq_refl) as (tail' & Htail' & Hscan');
      [discriminate|simpl in Hlen |- *; lia|].
    exists (escape_chars ks ++ DQUOTE :: ":"%char :: " "%char :: tv
              ++ ","%char :: " "%char :: DQUOTE :: tail').
    split.
    { repeat first [rewrite <- app_assoc | progress cbn [app]].
      now rewrite Htail'. }
    cbn [object_items]. rewrite (scanstring_escape_chars _ _ Hk).
    change (skip_ws (":"%char :: " "%char :: tv
                       ++ ","%char :: " "%char :: DQUOTE :: tail'))
      with (":"%char :: " "%char :: tv ++ ","%char :: " "%char :: DQUOTE :: tail').
    cbv beta iota.
    change (skip_ws (" "%char :: tv ++ ","%char :: " "%char :: DQUOTE :: tail'))
      with (skip_ws (tv ++ ","%char :: " "%char :: DQUOTE :: tail')).
    rewrite (head_ok_skip_ws _ (head_ok_app _ _ Htv)).
    rewrite (Hv tv (","%char :: " "%char :: DQUOTE :: tail') Ev eq_refl).
    change (skip_ws (","%char :: " "%char :: DQUOTE :: tail'))
      with (","%char :: " "%char :: DQUOTE :: tail').
    cbv beta iota.
    change (skip_ws (" "%char :: DQUOTE :: tail')) with (DQUOTE :: tail').
    unfold DQUOTE at 1. cbv beta iota. now rewrite Hscan'.
Qed.

(** A dictionary built from items with distinct keys is these items. *)
Lemma dict_set_fresh k v acc :
  existsb (fun kv => key_eqb (fst kv) k) acc = false ->
  dict_set k v acc = acc ++ [(k, v)].
Proof.
  induction acc as [|[k' v'] acc IH]; [reflexivity|].
  cbn [existsb fst dict_set]. rewrite orb_false_iff. intros [-> Hacc].
  now rewrite (IH Hacc).
Qed.

Lemma key_eqb_sym a b : key_eqb a b = key_eqb b a.
Proof.
  destruct a, b; try reflexivity. cbn [key_eqb].
  repeat case_bool_decide; congruence.
Qed.

Lemma dict_of_pairs_distinct items :
  keys_distinct items = true -> dict_of_pairs items = items.
Proof.
  unfold dict_of_pairs.
  assert (forall acc,
            keys_distinct items = true ->
            (forall kv, In kv items ->
                        existsb (fun kv' => key_eqb (fst kv') (fst kv)) acc = false) ->
            fold_left (fun items kv => dict_set (fst kv) (snd kv) items)
                      items acc = acc ++ items) as Hgen.
  { induction items as [|[k v] items IH]; intros acc Hdist Hacc.
    - now rewrite app_nil_r.
    - cbn [fold_left fst snd]. cbn [keys_distinct] in Hdist.
      apply andb_true_iff in Hdist as [Hk Hdist]. apply negb_true_iff in Hk.
      rewrite (dict_set_fresh k v acc (Hacc (k, v) (or_introl eq_refl))).
      rewrite (IH (acc ++ [(k, v)]) Hdist).
      + now rewrite <- app_assoc.
      + intros kv Hin. rewrite existsb_app, orb_false_iff. split.
        * apply Hacc. now right.
        * cbn [existsb fst]. rewrite orb_false_r.
          rewrite key_eqb_sym.
          destruct (key_eqb (fst kv) k) eqn:E; [|reflexivity].
          rewrite <- Hk. symmetry. apply existsb_exists. now exists kv. }
  intros Hdist. apply (Hgen [] Hdist). reflexivity.
Qed.

Lemma JSONArray_items scan s :
  head_ok s = true ->
  JSONArray scan s =
  match array_items scan (length s) s with
  | Some (vs, rest) => Some (PyList vs, rest)
  | None => None
  end.
Proof.
  intros Hs. unfold JSONArray. rewrite (head_ok_skip_ws _ Hs).
  destruct s as [|c s]; [discriminate|].
  destruct c as [[] [] [] [] [] [] [] []]; try reflexivity; discriminate.
Qed.

Lemma max_depth_bound {A} (d : A -> nat) (l : list A) x :
  In x l -> (d x <= fold_right Nat.max O (map d l))%nat.
Proof.
  induction l as [|y l IH]; [intros []|]. simpl. intros [->|Hin]; [lia|].
  specialize (IH Hin). lia.
Qed.

(** The decoder reads an encoded value back, given fuel for its depth. *)
Lemma scan_encoded v : forall f,
  json_shaped v = true -> (depth v <= f)%nat -> reads_back f v.
Proof.
  induction v as [|b|n|s|xs IH|xs IH|items IH|b] using PyVal_nested_ind;
    intros f Hshaped Hdepth t rest Henc Hrest;
    try discriminate Hshaped;
    (destruct f as [|f]; [simpl in Hdepth; lia|]).
  - injection Henc as <-. reflexivity.
  - destruct b; injection Henc as <-; reflexivity.
  - injection Henc as <-.
    destruct (int_repr_head n) as (c & r & Heq & Hc).
    rewrite Heq. cbn [app]. rewrite (proj2 (number_head c Hc (r ++ rest))).
    rewrite app_comm_cons, <- Heq. now apply scan_number_repr.
  - injection Henc as <-.
    destruct (scanstring_encoded s rest Hshaped) as (tl & -> & Hscan).
    change (scan_once (S f) (DQUOTE :: tl))
      with (match scanstring tl with
            | Some (key, rest) => Some (PyStr key, rest)
            | None => None
            end).
    now rewrite Hscan.
  - rewrite encode_PyList in Henc.
    destruct (encode_all xs) as [ts|] eqn:Exs; [|discriminate].
    injection Henc as <-. cbn [app]. rewrite <- app_assoc. cbn [app].
    change (scan_once (S f) ("["%char :: join_comma ts ++ "]"%char :: rest))
      with (JSONArray (scan_once f) (join_comma ts ++ "]"%char :: rest)).
    destruct (encode_all_heads _ _ Exs) as [Hlen Hheads].
    destruct xs as [|x xs].
    + cbn [encode_all] in Exs. injection Exs as <-. reflexivity.
    + destruct ts as [|t0 ts0]; [discriminate Hlen|].
      assert (head_ok (join_comma (t0 :: ts0) ++ "]"%char :: rest) = true) as Hhead.
      { apply head_ok_app, join_comma_head.
        now apply List.Forall_cons_iff in Hheads as [H0 _]. }
      rewrite (JSONArray_items _ _ Hhead).
      rewrite (array_items_encoded f (x :: xs) (t0 :: ts0)); [reflexivity| |exact Exs|discriminate|].
      * apply List.Forall_forall. intros y Hy.
        rewrite List.Forall_forall in IH. apply (IH y Hy).
        -- cbn [json_shaped] in Hshaped. rewrite forallb_forall in Hshaped.
           now apply Hshaped.
        -- cbn [depth] in Hdepth.
           pose proof (max_depth_bound depth (x :: xs) y Hy). lia.
      * rewrite length_app. pose proof (join_comma_length _ Hheads).
        simpl length in *. lia.
  - rewrite encode_PyDict in Henc.
    destruct (encode_pairs items) as [ts|] eqn:Eitems; [|discriminate].
    injection Henc as <-. cbn [app]. rewrite <- app_assoc. cbn [app].
    change (scan_once (S f) ("{"%char :: join_comma ts ++ "}"%char :: rest))
      with (JSONObject (scan_once f) (join_comma ts ++ "}"%char :: rest)).
    cbn [json_shaped] in Hshaped. apply andb_true_iff in Hshaped as [Hitems Hdist].
    destruct (encode_pairs_heads _ _ Eitems) as [Hlen Hheads].
    destruct items as [|kv items].
    + cbn [encode_pairs] in Eitems. injection Eitems as <-. reflexivity.
    + destruct (object_items_encoded f (kv :: items) ts
                  (Nat.pred (length (join_comma ts ++ "}"%char :: rest))) rest)
        as (tail & Htail & Hscan); [| |exact Eitems|discriminate| |].
      * apply List.Forall_forall. intros y Hy.
        rewrite List.Forall_forall in IH. apply (IH y Hy).
        -- rewrite forallb_forall in Hitems. specialize (Hitems y Hy).
           now apply andb_true_iff in Hitems as [_ H].
        -- cbn [depth] in Hdepth.
           pose proof (max_depth_bound (fun kv => depth (snd kv)) (kv :: items) y Hy).
           simpl in *. lia.
      * rewrite forallb_forall in Hitems |- *. intros y Hy.
        specialize (Hitems y Hy). now apply andb_true_iff in Hitems as [H _].
      * rewrite length_app. pose proof (join_comma_length _ Hheads).
        simpl length in *. lia.
      * rewrite Htail in Hscan |- *. cbn [length Nat.pred] in Hscan.
        unfold JSONObject.
        change (skip_ws (DQUOTE :: tail)) with (DQUOTE :: tail).
        unfold DQUOTE at 1. cbv beta iota. rewrite Hscan.
        now rewrite (dict_of_pairs_distinct _ Hdist).
Qed.

(** The encoder has a rule for every value of that shape. *)
Lemma encode_shaped v : json_shaped v = true -> exists t, encode v = Return t.
Proof.
  induction v as [|b|n|s|xs IH|xs IH|items IH|b] using PyVal_nested_ind;
    intros Hshaped; try discriminate Hshaped.
  - eauto.
  - destruct b; eauto.
  - eauto.
  - eauto.
  - rewrite encode_PyList.
    assert (exists ts, encode_all xs = Return ts) as [ts ->]; [|eauto].
    cbn [json_shaped] in Hshaped.
    induction xs as [|x xs IHxs]; [now exists []|].
    cbn [forallb] in Hshaped. apply andb_true_iff in Hshaped as [Hx Hxs].
    apply List.Forall_cons_iff in IH as [IHx IH].
    destruct (IHx Hx) as [t Ht]. destruct (IHxs IH Hxs) as [ts Hts].
    exists (t :: ts). cbn [encode_all]. now rewrite Ht, Hts.
  - rewrite encode_PyDict.
    assert (exists ts, encode_pairs items = Return ts) as [ts ->]; [|eauto].
    cbn [json_shaped] in Hshaped. apply andb_true_iff in Hshaped as [Hshaped _].
    induction items as [|[k v] items IHitems]; [now exists []|].
    cbn [forallb fst snd] in Hshaped.
    apply andb_true_iff in Hshaped as [Hkv Hitems].
    apply andb_true_iff in Hkv as [Hk Hv].
    apply List.Forall_cons_iff in IH as [IHv IH]. cbn [snd] in IHv.
    destruct (IHv Hv) as [t Ht]. destruct (IHitems IH Hitems) as [ts Hts].
    destruct k; try discriminate Hk.
    eexists. cbn [encode_pairs encode_key]. now rewrite Ht, Hts.
Qed.

(** The nesting of a value is at most the length of its text. *)
Lemma depth_length v : forall t,
  json_shaped v = true -> encode v = Return t -> (depth v <= length t)%nat.
Proof.
  induction v as [|b|n|s|xs IH|xs IH|items IH|b] using PyVal_nested_ind;
    intros t Hshaped Henc; try discriminate Hshaped;
    try (apply encode_head, head_ok_length in Henc; exact Henc).
  - rewrite encode_PyList in Henc.
    destruct (encode_all xs) as [ts|] eqn:Exs; [|discriminate].
    injection Henc as <-. cbn [depth length]. rewrite length_app.
    enough (fold_right Nat.max 0%nat (map depth xs) <= length (join_comma ts))%nat
      by (simpl; lia).
    cbn [json_shaped] in Hshaped. clear -IH Exs Hshaped. revert ts Exs.
    induction xs as [|x xs IHxs]; intros ts Exs; [simpl; lia|].
    cbn [encode_all] in Exs.
    destruct (encode x) as [t|] eqn:Ex; [|discriminate].
    destruct (encode_all xs) as [ts'|] eqn:Exs'; [|discriminate].
    injection Exs as <-. apply List.Forall_cons_iff in IH as [IHx IH].
    cbn [forallb] in Hshaped. apply andb_true_iff in Hshaped as [Hx Hxs].
    specialize (IHx t Hx Ex). specialize (IHxs IH Hxs ts' eq_refl).
    cbn [map fold_right]. rewrite join_comma_cons.
    destruct ts' as [|t' ts'']; [simpl in *; lia|].
    rewrite length_app. simpl length in *. lia.
  - rewrite encode_PyDict in Henc.
    destruct (encode_pairs items) as [ts|] eqn:Eitems; [|discriminate].
    injection Henc as <-. cbn [depth length]. rewrite length_app.
    enough (fold_right Nat.max 0%nat (map (fun kv => depth (snd kv)) items)
            <= length (join_comma ts))%nat by (simpl; lia).
    cbn [json_shaped] in Hshaped. apply andb_true_iff in Hshaped as [Hshaped _].
    clear -IH Eitems Hshaped. revert ts Eitems.
    induction items as [|[k v] items IHitems]; intros ts Eitems; [simpl; lia|].
    cbn [encode_pairs] in Eitems.
    destruct (encode_key k) as [ks|]; [|discriminate].
    destruct (encode v) as [t|] eqn:Ev; [|discriminate].
    destruct (encode_pairs items) as [ts'|] eqn:Eitems'; [|discriminate].
    injection Eitems as <-. apply List.Forall_cons_iff in IH as [IHv IH].
    cbn [forallb fst snd] in Hshaped.
    apply andb_true_iff in Hshaped as [Hkv Hitems].
    apply andb_true_iff in Hkv as [_ Hv]. cbn [snd] in IHv.
    specialize (IHv t Hv Ev). specialize (IHitems IH Hitems ts' eq_refl).
    assert (length t <= length (encode_basestring_ascii ks
                                  ++ ":"%char :: " "%char :: t))%nat as Hchunk
      by (rewrite length_app; simpl; lia).
    set (chunk := encode_basestring_ascii ks ++ _) in *.
    cbn [map fold_right snd]. rewrite join_comma_cons.
    destruct ts' as [|t' ts'']; [simpl in *; lia|].
    rewrite length_app. simpl length in *. lia.
Qed.

(** Decoding the text [json.dumps] writes for a value of that shape
    gives the value back. *)
Lemma loads_dumps v :
  json_shaped v = true ->
  exists s, dumps v = Return s /\ loads s = Some v.
Proof.
  intros Hshaped. destruct (encode_shaped v Hshaped) as [t Ht].
  exists (string_of_list_ascii t). unfold dumps, loads. rewrite Ht.
  split; [reflexivity|]. cbv zeta. rewrite list_ascii_of_string_of_list_ascii.
  rewrite (head_ok_skip_ws _ (encode_head _ _ Ht)).
  pose proof (scan_encoded v (S (length t)) Hshaped) as Hscan.
  pose proof (depth_length v t Hshaped Ht) as Hdepth.
  specialize (Hscan ltac:(lia) t [] Ht eq_refl).
  rewrite app_nil_r in Hscan. now rewrite Hscan.
Qed.

End RoundTrip.




(** * Further properties *)

(** ** Saving, step by step *)

Lemma store_row_length r rows :
  length (Sqlite.store_row r rows) = S (length rows).
Proof.
  destruct (store_row_split r rows) as (b & a & Hrows & ->).
  rewrite Hrows, !length_app. simpl. lia.
Qed.

Lemma rowids_cons r rows :
  Sqlite.rowids (r :: rows) =
  match RehabPlan.id r with
  | Some i => i :: Sqlite.rowids rows
  | None => Sqlite.rowids rows
  end.
Proof. reflexivity. Qed.

Lemma rowids_In rows r i :
  In r rows -> RehabPlan.id r = Some i -> In i (Sqlite.rowids rows).
Proof.
  intros Hin Hid. unfold Sqlite.rowids.
  rewrite <- list_elem_of_In, list_elem_of_omap. exists r.
  now rewrite list_elem_of_In.
Qed.

(** The search for an id passes over rows that do not carry it. *)
Lemma find_id_skip (rows rest : list RehabPlan.t) (i : Z) :
  ~ In i (Sqlite.rowids rows) ->
  List.find (fun r => bool_decide (RehabPlan.id r = Some i)) (rows ++ rest)
  = List.find (fun r => bool_decide (RehabPlan.id r = Some i)) rest.
Proof.
  induction rows as [|r rows IH]; intros Hnot; [reflexivity|].
  rewrite rowids_cons in Hnot. cbn [app List.find].
  destruct (RehabPlan.id r) as [j|] eqn:Hid.
  - rewrite bool_decide_eq_false_2.
    + apply IH. intros Hin. apply Hnot. now right.
    + intros [= ->]. apply Hnot. now left.
  - rewrite bool_decide_eq_false_2 by discriminate. now apply IH.
Qed.

(** A row stored under an id that was not in use is the row found under
    that id. *)
Lemma find_id_store_row rows row (i : Z) :
  RehabPlan.id row = Some i ->
  ~ In i (Sqlite.rowids rows) ->
  List.find (fun r => bool_decide (RehabPlan.id r = Some i))
            (Sqlite.store_row row rows) = Some row.
Proof.
  intros Hid Hnot.
  destruct (store_row_split row rows) as (b & a & Hrows & ->).
  rewrite find_id_skip.
  - cbn [List.find]. now rewrite bool_decide_eq_true_2.
  - intros Hin. apply Hnot. rewrite Hrows, rowids_app. apply in_or_app. now left.
Qed.

(** X1.  [save_plan] returns on every input and in every state of the
    storage: nothing is raised to the caller.  It prints one message:
    the id it returns, which is then the id of a stored row, or the
    failure when it returns [None]. *)
Theorem save_plan_always_returns env patient_info procedure days_post_op plan
    file_name notes w :
  exists r w' m,
    save_plan env patient_info procedure days_post_op plan file_name notes w
      = (Return r, w') /\
    stdout w' = stdout w ++ [m] /\
    match r with
    | Some i => m = MsgSaved (Some i) /\ In i (Sqlite.rowids (table w'))
    | None => exists e, m = MsgSaveFailed e
    end.
Proof.
  rewrite save_plan_run.
  destruct (Json.dumps plan) as [text|e];
    [|exists None; do 2 eexists; repeat split; eauto].
  destruct (Sqlite.insert env _ (table w)) as [[obj rows]|e];
    [|exists None; do 2 eexists; repeat split; eauto].
  destruct (commit_fault env) as [e|];
    [exists None; do 2 eexists; repeat split; eauto|].
  destruct (select_fault env) as [e|];
    [exists None; do 2 eexists; repeat split; eauto|].
  destruct (RehabPlan.id obj) as [i|];
    [|exists None; do 2 eexists; repeat split; eauto].
  destruct (List.find _ rows) as [row|] eqn:Hfind;
    [|exists None; do 2 eexists; repeat split; eauto].
  apply find_id_Some in Hfind as [Hin Hid]. rewrite Hid.
  exists (Some i). do 2 eexists. repeat split.
  now apply rowids_In with row.
Qed.

Section SaveSteps.

Variables (env : Env) (patient_info : gmap string string)
          (procedure : string) (days_post_op : Z) (plan : Json.PyVal)
          (file_name notes : option string) (w : World).

Local Abbreviation save :=
  (save_plan env patient_info procedure days_post_op plan file_name notes w).
Local Abbreviation row_of text :=
  (constructed patient_info procedure days_post_op text file_name notes).

(** X2.  When the insert and its commit work and the reload of the
    instance ([db.refresh]) fails, [save_plan] returns [None] and prints
    the failure, yet the new row is in the table: the rollback of the
    handler comes after the commit. *)
Theorem save_plan_refresh_failure text e :
  Json.dumps plan = Return text ->
  insert_outcome env (row_of text) w = Return tt ->
  select_fault env = Some e ->
  exists w' i before after,
    save = (Return None, w') /\
    stdout w' = stdout w ++ [MsgSaveFailed e] /\
    table w = before ++ after /\
    table w' = before ++ inserted env i (row_of text) :: after.
Proof.
  intros Hdumps Hins Hselect.
  rewrite insert_outcome_run, insert_constructed in Hins. cbv zeta in Hins.
  rewrite save_plan_run, Hdumps, insert_constructed. cbv zeta.
  destruct (negb (Sqlite.fits_int64 days_post_op)); [discriminate|].
  destruct (insert_fault env); [discriminate|].
  destruct (Sqlite.new_rowid (randomness env) (table w)) as [i|]; [|discriminate].
  destruct (commit_fault env); [discriminate|].
  rewrite Hselect.
  destruct (store_row_split (inserted env i (row_of text)) (table w))
    as (before & after & Hw & Hstore).
  eexists. exists i, before, after.
  split; [reflexivity|]. split; [reflexivity|]. split; [exact Hw|exact Hstore].
Qed.

(** X3.  A [days_post_op] that does not fit a 64-bit integer cannot be
    bound to the INSERT statement: [save_plan] returns [None], prints
    the [OverflowError] and stores nothing. *)
Theorem save_plan_days_out_of_range text :
  Json.dumps plan = Return text ->
  ~ (Sqlite.MIN_INT64 <= days_post_op <= Sqlite.MAX_ROWID) ->
  save = (Return None, failed w OverflowError).
Proof.
  intros Hdumps Hrange.
  rewrite save_plan_run, Hdumps, insert_constructed. cbv zeta.
  unfold Sqlite.fits_int64.
  destruct (Sqlite.MIN_INT64 <=? days_post_op) eqn:Hlo;
    destruct (days_post_op <=? Sqlite.MAX_ROWID) eqn:Hhi; try reflexivity.
  apply Z.leb_le in Hlo, Hhi. exfalso. apply Hrange. lia.
Qed.

(** X4.  After a call that returned the id [i], [get_plan_by_id i]
    returns the record built from the arguments of the call: a missing
    age or gender reads ["N/A"], a missing surgery date or condition and
    missing or empty notes read as the empty string, [plan_json] is the
    text of [json.dumps], [created_at] the clock's reading of the call. *)
Theorem save_then_get_plan_by_id i w' env' :
  save = (Return (Some i), w') ->
  select_fault env' = None ->
  exists text,
    Json.dumps plan = Return text /\
    get_plan_by_id env' i w' =
    (Return
       (Some (RehabPlan.mk
                (Some i)
                (Some (default "N/A"%string (patient_info !! "age"%string)))
                (Some (default "N/A"%string (patient_info !! "gender"%string)))
                (Some (default ""%string (patient_info !! "surgeryDate"%string)))
                (Some (default ""%string (patient_info !! "conditions"%string)))
                (Some (match notes with
                       | Some (String c s) => String c s
                       | _ => ""%string
                       end))
                (Some procedure)
                (Some days_post_op)
                (Some text)
                (Some (utcnow env))
                file_name)),
     w').
Proof.
  intros Hsave Hselect.
  destruct (save_plan_success_inv _ _ _ _ _ _ _ _ _ _ Hsave)
    as (text & Hdumps & Hnew & ->).
  exists text. split; [exact Hdumps|].
  rewrite get_plan_by_id_run, Hselect. cbn [table].
  rewrite (find_id_store_row (table w) (inserted env i (row_of text)) i eq_refl
             (new_rowid_fresh _ _ _ Hnew)).
  unfold inserted, constructed, RehabPlan.set_id, RehabPlan.set_created_at, or_empty.
  cbn. destruct notes as [[|c s]|]; reflexivity.
Qed.

(** X5.  A plan of JSON shape that was saved is read back: the record
    [get_plan_by_id] returns for the id of the call holds in [plan_json]
    a text that [json.loads] decodes to the plan. *)
Theorem saved_plan_reads_back i w' env' :
  save = (Return (Some i), w') ->
  select_fault env' = None ->
  Json.json_shaped plan = true ->
  exists row text,
    get_plan_by_id env' i w' = (Return (Some row), w') /\
    RehabPlan.plan_json row = Some text /\
    Json.loads text = Some plan.
Proof.
  intros Hsave Hselect Hshaped.
  destruct (save_plan_success_inv _ _ _ _ _ _ _ _ _ _ Hsave)
    as (text & Hdumps & Hnew & ->).
  destruct (loads_dumps plan Hshaped) as (s & Hs & Hloads).
  rewrite Hs in Hdumps. injection Hdumps as <-.
  exists (inserted env i (row_of s)), s.
  rewrite get_plan_by_id_run, Hselect. cbn [table].
  rewrite (find_id_store_row (table w) (inserted env i (row_of s)) i eq_refl
             (new_rowid_fresh _ _ _ Hnew)).
  repeat split. exact Hloads.
Qed.

End SaveSteps.

(** ** A save and the statistics *)

Lemma records_with_store key row rows :
  records_with key (Sqlite.store_row row rows) =
  if bool_decide (RehabPlan.procedure_identified row = key)
  then S (records_with key rows) else records_with key rows.
Proof.
  destruct (store_row_split row rows) as (b & a & Hrows & ->).
  rewrite Hrows. unfold records_with.
  rewrite !List.filter_app, !length_app. cbn [List.filter].
  destruct (bool_decide _); simpl; lia.
Qed.

Lemma keyed_store_row row rows i :
  RehabPlan.id row = Some i -> keyed rows -> keyed (Sqlite.store_row row rows).
Proof.
  intros Hid Hkeyed.
  destruct (store_row_split row rows) as (b & a & Hrows & ->).
  unfold keyed in *. rewrite Hrows in Hkeyed.
  apply Forall_app in Hkeyed as [Hb Ha].
  apply Forall_app. split; [exact Hb|]. apply Forall_cons. split; [|exact Ha].
  rewrite Hid. eauto.
Qed.

(** X6.  A call that returned an id shows in the statistics: one plan
    more in [total_plans], one more under the procedure of the call in
    [procedures], and the counts of the other procedures as before. *)
Theorem save_then_get_stats env patient_info procedure days_post_op plan
    file_name notes w i w' env' :
  save_plan env patient_info procedure days_post_op plan file_name notes w
    = (Return (Some i), w') ->
  keyed (table w) ->
  select_fault env' = None ->
  exists st st',
    get_stats env' w = (Return st, w) /\
    get_stats env' w' = (Return st', w') /\
    total_plans st' = S (total_plans st) /\
    procedures st' !! Some procedure
      = Some (S (default 0%nat (procedures st !! Some procedure))) /\
    forall key, key <> Some procedure ->
      procedures st' !! key = procedures st !! key.
Proof.
  intros Hsave Hkeyed Hselect.
  destruct (save_plan_success_inv _ _ _ _ _ _ _ _ _ _ Hsave)
    as (text & Hdumps & Hnew & ->).
  set (row := inserted env i _).
  assert (keyed (Sqlite.store_row row (table w))) as Hkeyed'
    by now apply keyed_store_row with i.
  rewrite !get_stats_run, Hselect. do 2 eexists.
  split; [reflexivity|]. split; [reflexivity|].
  cbn [total_plans procedures table].
  split; [apply store_row_length|].
  split.
  - rewrite !procedures_lookup by assumption.
    rewrite records_with_store.
    change (RehabPlan.procedure_identified row) with (Some procedure).
    rewrite bool_decide_eq_true_2 by reflexivity.
    now destruct (records_with (Some procedure) (table w)).
  - intros key Hkey. rewrite !procedures_lookup by assumption.
    rewrite records_with_store.
    change (RehabPlan.procedure_identified row) with (Some procedure).
    rewrite bool_decide_eq_false_2 by congruence. reflexivity.
Qed.

(** ** Reading when the storage fails *)

(** X7.  The three readers have no handler: when their SELECT fails,
    the error of the storage is raised to the caller; the store is as it
    was.  The id given to [get_plan_by_id] is one that fits 64 bits, as
    the parameter of its statement has to. *)
Theorem reads_raise_storage_errors env e plan_id w :
  select_fault env = Some e ->
  Sqlite.fits_int64 plan_id = true ->
  get_all_plans env w = (Raise e, w) /\
  get_plan_by_id env plan_id w = (Raise e, w) /\
  get_stats env w = (Raise e, w).
Proof.
  intros Hselect _.
  rewrite get_all_plans_run, get_plan_by_id_run, get_stats_run, Hselect.
  repeat split.
Qed.

(** ** Primary keys *)

Lemma rowids_store_row_perm row rows i :
  RehabPlan.id row = Some i ->
  Sqlite.rowids (Sqlite.store_row row rows) ≡ₚ i :: Sqlite.rowids rows.
Proof.
  intros Hid. destruct (store_row_split row rows) as (b & a & Hrows & ->).
  rewrite Hrows, !rowids_app, rowids_cons, Hid.
  symmetry. apply Permutation_middle.
Qed.

Lemma unique_ids_run_call w call :
  unique_ids (table w) -> unique_ids (table (run_call w call)).
Proof.
  intros [Hkeyed Hnd]. split; [now apply keyed_run_call|].
  destruct call as [|c|env|env plan_id|env].
  - exact Hnd.
  - destruct (save_call_step c w) as (r & w' & Hstep & Hcases).
    unfold run_call. rewrite Hstep. cbn [snd].
    destruct Hcases as [[-> _]|(i & row & Hnew & Hid & -> & _)]; [exact Hnd|].
    rewrite (rowids_store_row_perm _ _ _ Hid). apply NoDup_cons. split; [|exact Hnd].
    rewrite list_elem_of_In. now apply new_rowid_fresh with (randomness (call_env c)).
  - pose proof (run_call_read_only w (CallGetAll env)) as H.
    cbv beta iota in H. now rewrite H.
  - pose proof (run_call_read_only w (CallGetById env plan_id)) as H.
    cbv beta iota in H. now rewrite H.
  - pose proof (run_call_read_only w (CallGetStats env)) as H.
    cbv beta iota in H. now rewrite H.
Qed.

Lemma unique_ids_run_calls calls : forall w,
  unique_ids (table w) -> unique_ids (table (run_calls w calls)).
Proof.
  induction calls as [|call calls IH]; intros w Hw; [exact Hw|].
  simpl. apply IH. now apply unique_ids_run_call.
Qed.

(** X8.  Through every history of calls of the module, every stored row
    keeps a primary key and no two rows share one. *)
Theorem ids_stay_unique calls w :
  unique_ids (table w) -> unique_ids (table (run_calls w calls)).
Proof. apply unique_ids_run_calls. Qed.

Lemma unique_row rows : forall r r' (i : Z),
  NoDup (Sqlite.rowids rows) ->
  In r rows -> In r' rows ->
  RehabPlan.id r = Some i -> RehabPlan.id r' = Some i -> r = r'.
Proof.
  induction rows as [|x rows IH]; intros r r' i Hnd Hr Hr' Hid Hid'; [destruct Hr|].
  rewrite rowids_cons in Hnd.
  assert (NoDup (Sqlite.rowids rows)) as Hnd'.
  { destruct (RehabPlan.id x); [now apply NoDup_cons in Hnd as [_ Hnd]|exact Hnd]. }
  assert (forall y, In y rows -> RehabPlan.id y = Some i ->
                    RehabPlan.id x = Some i -> False) as Hclash.
  { intros y Hy Hyid Hxid. rewrite Hxid in Hnd. apply NoDup_cons in Hnd as [Hnot _].
    apply Hnot. rewrite list_elem_of_In. now apply rowids_In with y. }
  destruct Hr as [->|Hr], Hr' as [->|Hr'].
  - reflexivity.
  - exfalso. now apply (Hclash r').
  - exfalso. now apply (Hclash r).
  - now apply (IH r r' i).
Qed.

Lemma find_id_unique rows r (i : Z) :
  NoDup (Sqlite.rowids rows) ->
  In r rows ->
  RehabPlan.id r = Some i ->
  List.find (fun r => bool_decide (RehabPlan.id r = Some i)) rows = Some r.
Proof.
  intros Hnd Hin Hid.
  destruct (List.find _ rows) as [r'|] eqn:Hfind.
  - apply find_id_Some in Hfind as [Hin' Hid'].
    now rewrite (unique_row _ _ _ _ Hnd Hin Hin' Hid Hid').
  - exfalso. exact (find_id_None _ _ Hfind r Hin Hid).
Qed.

(** X9.  On a store whose ids are unique, [get_plan_by_id] returns the
    one row that carries the id: every row [get_all_plans] returns is
    the answer for its own id. *)
Theorem get_plan_by_id_exact env plan_id w r :
  select_fault env = None ->
  NoDup (Sqlite.rowids (table w)) ->
  In r (table w) ->
  RehabPlan.id r = Some plan_id ->
  get_all_plans env w = (Return (table w), w) /\
  get_plan_by_id env plan_id w = (Return (Some r), w).
Proof.
  intros Hselect Hnd Hin Hid.
  rewrite get_all_plans_run, get_plan_by_id_run, Hselect. split; [reflexivity|].
  now rewrite (find_id_unique _ _ _ Hnd Hin Hid).
Qed.

Lemma rows_stay calls : forall w r,
  In r (table w) -> In r (table (run_calls w calls)).
Proof.
  induction calls as [|call calls IH]; intros w r Hin; [exact Hin|].
  simpl. apply IH.
  destruct (run_call_table w call)
    as [->|(c & row & before & after & _ & Hw & -> & _)]; [exact Hin|].
  rewrite Hw in Hin. apply in_app_or in Hin as [Hin|Hin];
    apply in_or_app; [now left|now right; right].
Qed.

(** X10.  A saved plan stays: on a store whose ids are unique, after a
    call that returned the id [i], whatever calls of the module follow,
    [get_plan_by_id i] returns the record it returned right after the
    call. *)
Theorem saved_plan_stays env patient_info procedure days_post_op plan
    file_name notes w i w' calls env' :
  save_plan env patient_info procedure days_post_op plan file_name notes w
    = (Return (Some i), w') ->
  unique_ids (table w) ->
  select_fault env' = None ->
  exists row,
    get_plan_by_id env' i w' = (Return (Some row), w') /\
    get_plan_by_id env' i (run_calls w' calls)
      = (Return (Some row), run_calls w' calls).
Proof.
  intros Hsave Hunique Hselect.
  pose (c := mkSaveCall env patient_info procedure days_post_op plan
                        file_name notes).
  assert (w' = run_call w (CallSave c)) as Hw'
    by (unfold run_call, save_call; cbn; now rewrite Hsave).
  assert (unique_ids (table w')) as Hunique'
    by (rewrite Hw'; now apply unique_ids_run_call).
  pose proof (unique_ids_run_calls calls w' Hunique') as [_ Hnd].
  destruct (save_plan_success_inv _ _ _ _ _ _ _ _ _ _ Hsave)
    as (text & Hdumps & Hnew & Htable).
  set (row := inserted env i
                (constructed patient_info procedure days_post_op text
                             file_name notes)) in *.
  assert (In row (table w')) as Hin.
  { rewrite Htable. cbn [table].
    destruct (store_row_split row (table w)) as (b & a & _ & ->).
    apply in_or_app. right. now left. }
  exists row. rewrite !get_plan_by_id_run, Hselect. split.
  - now rewrite (find_id_unique _ row i (proj2 Hunique') Hin eq_refl).
  - now rewrite (find_id_unique _ row i Hnd (rows_stay calls w' row Hin) eq_refl).
Qed.

(** ** Calls that store nothing *)




(** ** Ids on a store that started empty *)

Lemma numbered_run_call w call :
  numbered (length (table w)) (table w) ->
  numbered (length (table (run_call w call))) (table (run_call w call)).
Proof.
  intros Hnum.
  pose proof (run_call_read_only w call) as Hread.
  destruct call as [|c|env|env plan_id|env]; try (now rewrite Hread).
  destruct (save_call_step c w) as (r & w' & Hstep & Hcases).
  unfold run_call. rewrite Hstep. cbn [snd].
  destruct Hcases as [[-> _]|(i & row & Hnew & Hid & -> & _)]; [exact Hnum|].
  rewrite (numbered_new_rowid _ _ _ _ Hnum Hnew) in Hid.
  rewrite store_row_length. now apply numbered_store.
Qed.

Lemma numbered_run_calls calls : forall w,
  numbered (length (table w)) (table w) ->
  numbered (length (table (run_calls w calls))) (table (run_calls w calls)).
Proof.
  induction calls as [|call calls IH]; intros w Hnum; [exact Hnum|].
  simpl. apply IH. now apply numbered_run_call.
Qed.

(** X12.  On a store that started empty, after any history of calls the
    ids in use are 1, 2, ..., n for the n plans stored, and the next
    call that returns an id returns n + 1: failed calls use up no id. *)
Theorem fresh_history_ids calls :
  let w := run_calls fresh calls in
  Sqlite.rowids (table w) = map Z.of_nat (seq 1 (length (table w))) /\
  forall c i w',
    save_call c w = (Return (Some i), w') ->
    i = Z.of_nat (length (table w)) + 1.
Proof.
  intros w.
  assert (numbered (length (table w)) (table w)) as Hnum
    by (apply numbered_run_calls; reflexivity).
  split; [exact Hnum|].
  intros c i w' Hsave. unfold save_call in Hsave.
  apply save_plan_success_inv in Hsave as (text & _ & Hnew & _).
  exact (numbered_new_rowid _ _ _ _ Hnum Hnew).
Qed.

(** ** A batch of saves and the number of plans *)

Lemma save_call_count c w :
  exists r w',
    save_call c w = (Return r, w') /\
    ((length (table w') = length (table w) /\ r = None) \/
     (length (table w') = S (length (table w)) /\
      (r = None -> select_fault (call_env c) <> None))).
Proof.
  unfold save_call. rewrite save_plan_run.
  destruct (Json.dumps (call_plan c)) as [text|e]; [|eauto 8].
  rewrite insert_constructed. cbv zeta.
  destruct (negb _); [eauto 8|].
  destruct (insert_fault _); [eauto 8|].
  destruct (Sqlite.new_rowid _ _) as [i|] eqn:Hnew; [|eauto 8].
  destruct (commit_fault _); [eauto 8|].
  set (row := inserted _ i _).
  destruct (select_fault _) as [e|] eqn:Hselect.
  - do 2 eexists. split; [reflexivity|]. right. cbn [table failed].
    split; [apply store_row_length|discriminate].
  - change (RehabPlan.id row) with (Some i). cbv beta iota.
    rewrite (find_id_store_row (table w) row i eq_refl (new_rowid_fresh _ _ _ Hnew)).
    do 2 eexists. split; [reflexivity|]. right. cbn [table].
    split; [apply store_row_length|discriminate].
Qed.

(** X13.  A batch of [save_plan] calls returns one result per call and
    raises nothing; the table grows by at least the number of ids
    returned, and by that number when the reloads all work. *)
Theorem save_each_total calls : forall w,
  exists results w',
    save_each calls w = (Return results, w') /\
    length results = length calls /\
    (length (table w) + length (ids_returned results) <= length (table w'))%nat /\
    (Forall (fun c => select_fault (call_env c) = None) calls ->
     length (table w')
     = (length (table w) + length (ids_returned results))%nat).
Proof.
  induction calls as [|c calls IH]; intros w.
  - exists [], w. repeat split; simpl; lia.
  - destruct (save_call_count c w) as (r & w1 & Hstep & Hcases).
    destruct (IH w1) as (rs & w2 & Hrest & Hlen & Hle & Heq).
    exists (r :: rs), w2. cbn [save_each].
    unfold mbind, PyM_bind, bind at 1. rewrite Hstep.
    unfold bind at 1. rewrite Hrest.
    split; [reflexivity|]. split; [simpl; lia|].
    assert (length (ids_returned (r :: rs))
            = (match r with Some _ => 1 | None => 0 end
               + length (ids_returned rs))%nat) as Hids
      by now destruct r.
    rewrite Hids. split.
    + destruct Hcases as [[Htable ->]|[Htable _]]; [lia|destruct r; lia].
    + intros Hall. apply Forall_cons in Hall as [Hc Hall].
      specialize (Heq Hall).
      destruct Hcases as [[Htable ->]|[Htable Hr]]; [lia|].
      destruct r; [lia|]. now destruct (Hr eq_refl).
Qed.

(** ** A call that returns nothing *)

Lemma save_call_result c w1 w2 :
  table w1 = table w2 -> (save_call c w1).1 = (save_call c w2).1.
Proof.
  intros Htable. unfold save_call. rewrite !save_plan_run, Htable.
  destruct (Json.dumps _); [|reflexivity].
  destruct (Sqlite.insert _ _ _) as [[obj rows]|]; [|reflexivity].
  destruct (commit_fault _); [reflexivity|].
  destruct (select_fault _); [reflexivity|].
  destruct (RehabPlan.id obj); [|reflexivity].
  destruct (List.find _ rows); reflexivity.
Qed.

(** X14.  When [save_plan] returns [None] and its reload did not fail,
    nothing was stored, and the calls that follow answer as if the call
    had not been made: a later [save_plan] returns what it would have
    returned, and the readers return what they returned before. *)
Theorem none_means_nothing_stored env patient_info procedure days_post_op plan
    file_name notes w w' :
  save_plan env patient_info procedure days_post_op plan file_name notes w
    = (Return None, w') ->
  select_fault env = None ->
  table w' = table w /\
  (forall c, (save_call c w').1 = (save_call c w).1) /\
  (forall env' plan_id,
     (get_all_plans env' w').1 = (get_all_plans env' w).1 /\
     (get_plan_by_id env' plan_id w').1 = (get_plan_by_id env' plan_id w).1 /\
     (get_stats env' w').1 = (get_stats env' w).1).
Proof.
  intros Hsave Hselect.
  assert (table w' = table w) as Htable.
  { revert Hsave. rewrite save_plan_run.
    destruct (Json.dumps plan) as [text|]; [|now intros [= <-]].
    rewrite insert_constructed. cbv zeta.
    destruct (negb _); [now intros [= <-]|].
    destruct (insert_fault env); [now intros [= <-]|].
    destruct (Sqlite.new_rowid _ _) as [i|] eqn:Hnew; [|now intros [= <-]].
    destruct (commit_fault env); [now intros [= <-]|].
    rewrite Hselect.
    set (row := inserted env i _).
    change (RehabPlan.id row) with (Some i). cbv beta iota.
    rewrite (find_id_store_row (table w) row i eq_refl (new_rowid_fresh _ _ _ Hnew)).
    discriminate. }
  split; [exact Htable|]. split.
  - intros c. now apply save_call_result.
  - intros env' plan_id.
    rewrite !get_all_plans_run, !get_plan_by_id_run, !get_stats_run, Htable.
    destruct (select_fault env'); repeat split.
Qed.

(** ** Ids on a store that is not empty *)

Section Room.

Import Sqlite.

(** There is room for [n] more rows: counting [n] up from any rowid in
    use, or from 0, stays below [MAX_ROWID]. *)
Lemma new_rowid_room n draws rows i row :
  Z.of_nat (S n) < MAX_ROWID ->
  (forall j, In j (rowids rows) -> j + Z.of_nat (S n) < MAX_ROWID) ->
  new_rowid draws rows = Some i ->
  RehabPlan.id row = Some i ->
  (forall j, In j (rowids rows) -> j < i) /\
  (forall j, In j (rowids (store_row row rows)) -> j + Z.of_nat n < MAX_ROWID).
Proof.
  intros Hn Hroom Hnew Hid.
  assert ((forall j, In j (rowids rows) -> j < i) /\ i + Z.of_nat n < MAX_ROWID)
    as [Hlt Hi].
  { unfold new_rowid in Hnew. destruct (last_rowid rows) as [v|] eqn:Hlast.
    - assert (In v (rowids rows)) as Hv.
      { unfold last_rowid in Hlast. destruct (rowids rows) as [|a l]; [discriminate|].
        injection Hlast as <-. apply fold_max_in. }
      pose proof (Hroom v Hv) as Hvroom.
      destruct (v <? MAX_ROWID) eqn:E; [|apply Z.ltb_ge in E; lia].
      injection Hnew as <-. split; [|lia].
      intros j Hj. pose proof (last_rowid_bound _ _ _ Hlast Hj). lia.
    - injection Hnew as <-. apply last_rowid_None in Hlast. rewrite Hlast.
      split; [intros j []|lia]. }
  split; [exact Hlt|].
  intros j Hj. apply (rowids_store_row _ _ _ _ Hid) in Hj as [->|Hj]; [exact Hi|].
  specialize (Hroom j Hj). lia.
Qed.

(** X15.  On any store with room for the calls below the largest
    possible id, the ids a sequence of [save_plan] calls returns are
    strictly increasing and larger than every id the store held before,
    whether or not some of the calls fail. *)
Theorem save_each_ids_increase calls : forall w results w',
  Z.of_nat (length calls) < MAX_ROWID ->
  (forall j, In j (rowids (table w)) ->
             j + Z.of_nat (length calls) < MAX_ROWID) ->
  save_each calls w = (Return results, w') ->
  StronglySorted Z.lt (ids_returned results) /\
  forall i j, In i (ids_returned results) -> In j (rowids (table w)) -> j < i.
Proof.
  induction calls as [|c calls IH]; intros w results w' Hn Hroom; simpl.
  - intros [= <- <-]. split; [constructor|intros i j []].
  - unfold mbind, PyM_bind, bind at 1.
    destruct (save_call_step c w) as (r & w1 & Hstep & Hcases). rewrite Hstep.
    unfold bind at 1.
    destruct (save_each calls w1) as [[rs|e] w2] eqn:Hrest; [|discriminate].
    intros [= <- <-].
    destruct Hcases as [[Htable ->]|(i & row & Hnew & Hid & Htable & Hr)].
    + change (ids_returned (None :: rs)) with (ids_returned rs).
      rewrite <- Htable.
      apply (IH w1 rs w2); [simpl length in Hn; lia| |exact Hrest].
      rewrite Htable. intros j Hj. specialize (Hroom j Hj).
      simpl length in Hroom. lia.
    + destruct (new_rowid_room (length calls) _ _ _ row Hn Hroom Hnew Hid)
        as [Hlt Hroom1].
      rewrite <- Htable in Hroom1.
      destruct (IH w1 rs w2 ltac:(simpl length in Hn; lia) Hroom1 Hrest)
        as [Hsorted Habove].
      assert (forall i' j, In i' (ids_returned rs) ->
                           In j (rowids (table w)) -> j < i') as Habove'.
      { intros i' j Hi' Hj. apply (Habove i' j Hi'). rewrite Htable.
        apply (rowids_store_row _ _ _ _ Hid). now right. }
      destruct Hr as [->| ->];
        [|change (ids_returned (None :: rs)) with (ids_returned rs); now split].
      change (ids_returned (Some i :: rs)) with (i :: ids_returned rs).
      split.
      * constructor; [exact Hsorted|]. apply List.Forall_forall.
        intros i' Hi'. apply (Habove i' i Hi'). rewrite Htable.
        apply (rowids_store_row _ _ _ _ Hid). now left.
      * intros i' j [<-|Hi'] Hj; [now apply Hlt|now apply Habove'].
Qed.

End Room.

Lemma save_each_ids_increase_witness :
  let calls := [call_ex 5000 "ACL";
                mkSaveCall storage_down info_ex "ACL" 12 plan_ex None None;
                call_ex 6000 "Hip"] in
  let w' := (save_each calls store_AAB).2 in
  Z.of_nat (length calls) < Sqlite.MAX_ROWID /\
  (forall j, In j (Sqlite.rowids (table store_AAB)) ->
             j + Z.of_nat (length calls) < Sqlite.MAX_ROWID) /\
  save_each calls store_AAB = (Return [Some 4; None; Some 5], w') /\
  StronglySorted Z.lt (ids_returned [Some 4; None; Some 5]) /\
  forall i j, In i (ids_returned [Some 4; None; Some 5]) ->
              In j (Sqlite.rowids (table store_AAB)) -> j < i.
Proof.
  intros calls w'.
  assert (forall j, In j (Sqlite.rowids (table store_AAB)) ->
                    j + Z.of_nat (length calls) < Sqlite.MAX_ROWID) as Hroom.
  { replace (Sqlite.rowids (table store_AAB)) with [1; 2; 3]
      by (vm_compute; reflexivity).
    unfold Sqlite.MAX_ROWID. simpl. intros j Hj. lia. }
  assert (save_each calls store_AAB = (Return [Some 4; None; Some 5], w')) as Hrun
    by (vm_compute; reflexivity).
  split; [reflexivity|]. split; [exact Hroom|]. split; [exact Hrun|].
  exact (save_each_ids_increase calls store_AAB [Some 4; None; Some 5] w'
           eq_refl Hroom Hrun).
Defined.

(** ** The order of the rows and the clock *)

Lemma save_call_appends c w :
  numbered (length (table w)) (table w) ->
  table (save_call c w).2 = table w \/
  exists row,
    RehabPlan.created_at row = Some (utcnow (call_env c)) /\
    table (save_call c w).2 = table w ++ [row].
Proof.
  intros Hnum. unfold save_call. rewrite save_plan_run.
  destruct (Json.dumps (call_plan c)) as [text|e]; [|now left].
  rewrite insert_constructed. cbv zeta.
  destruct (negb _); [now left|].
  destruct (insert_fault _); [now left|].
  destruct (Sqlite.new_rowid _ _) as [i|] eqn:Hnew; [|now left].
  destruct (commit_fault _); [now left|].
  set (row := inserted _ i _).
  assert (Sqlite.store_row row (table w) = table w ++ [row]) as Hstore.
  { apply (numbered_store _ _ _ Hnum).
    now rewrite <- (numbered_new_rowid _ _ _ _ Hnum Hnew). }
  right. exists row. split; [reflexivity|].
  destruct (select_fault _); [exact Hstore|].
  change (RehabPlan.id row) with (Some i). cbv beta iota.
  destruct (List.find _ _); exact Hstore.
Qed.

Lemma StronglySorted_drop (xs : list Z) x ys :
  StronglySorted Z.le (xs ++ x :: ys) -> StronglySorted Z.le (xs ++ ys).
Proof.
  induction xs as [|a xs IH]; cbn [app]; intros Hs.
  - now apply StronglySorted_inv in Hs as [Hs _].
  - apply StronglySorted_inv in Hs as [Hs Ha]. constructor; [now apply IH|].
    rewrite List.Forall_app in *. destruct Ha as [Hxs Hys]. split; [exact Hxs|].
    now apply List.Forall_inv_tail in Hys.
Qed.

Lemma chronological_run_calls calls : forall w,
  numbered (length (table w)) (table w) ->
  StronglySorted Z.le (creation_times (table w) ++ save_clocks calls) ->
  StronglySorted Z.le (creation_times (table (run_calls w calls))).
Proof.
  induction calls as [|call calls IH]; intros w Hnum Hsorted.
  - unfold save_clocks in Hsorted. cbn in Hsorted.
    now rewrite app_nil_r in Hsorted.
  - pose proof (numbered_run_call w call Hnum) as Hnum'.
    pose proof (run_call_read_only w call) as Hread.
    cbn [run_calls fold_left]. apply IH; [exact Hnum'|].
    destruct call as [|c|env|env plan_id|env]; try (now rewrite Hread).
    change (save_clocks (CallSave c :: calls))
      with (utcnow (call_env c) :: save_clocks calls) in Hsorted.
    unfold run_call.
    destruct (save_call_appends c w Hnum) as [->|(row & Hrow & ->)].
    + now apply StronglySorted_drop in Hsorted.
    + unfold creation_times at 1. rewrite omap_app.
      change (omap RehabPlan.created_at [row])
        with (match RehabPlan.created_at row with
              | Some t => [t]
              | None => []
              end).
      rewrite Hrow, <- app_assoc. exact Hsorted.
Qed.

(** X16.  On a store that started empty, when the clock does not go
    back from one [save_plan] call to the next, the rows of the table,
    in the order [get_all_plans] returns them, carry [created_at] values
    that never decrease: the plans are listed in the order they were
    saved. *)
Theorem fresh_history_chronological calls :
  StronglySorted Z.le (save_clocks calls) ->
  StronglySorted Z.le (creation_times (table (run_calls fresh calls))).
Proof.
  intros Hsorted. apply chronological_run_calls; [reflexivity|exact Hsorted].
Qed.

Lemma fresh_history_chronological_witness :
  StronglySorted Z.le (save_clocks history_ex) /\
  StronglySorted Z.le (creation_times (table (run_calls fresh history_ex))).
Proof.
  assert (StronglySorted Z.le (save_clocks history_ex)) as Hclocks.
  { change (save_clocks history_ex) with [1000; 1000; 2000].
    repeat (constructor; try lia). }
  split; [exact Hclocks|].
  exact (fresh_history_chronological history_ex Hclocks).
Defined.

(** ** The statistics add up *)

Section Counts.

Import Aggregate.

Lemma sum_counts_insert (m : gmap (option string) nat) k n :
  m !! k = None -> sum_counts (<[k := n]> m) = (n + sum_counts m)%nat.
Proof.
  intros Hk. unfold sum_counts.
  apply (map_fold_insert_L (fun _ n acc => (n + acc)%nat)); [|exact Hk].
  intros; lia.
Qed.

Lemma sum_counts_fold (groups : list (option string * nat)) :
  forall m : gmap (option string) nat,
    NoDup groups.*1 ->
    (forall k, k ∈ groups.*1 -> m !! k = None) ->
    sum_counts (fold_left (fun m kv => <[kv.1 := kv.2]> m) groups m)
    = (list_sum groups.*2 + sum_counts m)%nat.
Proof.
  induction groups as [|[k n] groups IH]; intros m Hnd Hfree; [reflexivity|].
  rewrite fmap_cons in Hnd. apply NoDup_cons in Hnd as [Hk Hnd].
  cbn [fold_left fst snd]. rewrite IH.
  - rewrite sum_counts_insert by (apply Hfree; rewrite fmap_cons; apply list_elem_of_here).
    rewrite fmap_cons. simpl. lia.
  - exact Hnd.
  - intros k' Hk'. rewrite lookup_insert_ne by (intros ->; contradiction).
    apply Hfree. rewrite fmap_cons. now apply list_elem_of_further.
Qed.

Lemma group_step_sum key counted groups :
  list_sum (group_step key counted groups).*2
  = (bump counted O + list_sum groups.*2)%nat.
Proof.
  induction groups as [|[k n] groups IH]; [simpl; lia|].
  cbn [group_step]. destruct (bool_decide (k = key)).
  - rewrite !fmap_cons. destruct counted; simpl; lia.
  - rewrite !fmap_cons. cbn [snd list_sum fold_right] in *.
    change (fold_right Nat.add 0%nat) with list_sum. rewrite IH. lia.
Qed.

Lemma group_fold_sum rows : forall acc,
  keyed rows ->
  list_sum
    (fold_left
       (fun groups r =>
          group_step (RehabPlan.procedure_identified r)
                     (bool_decide (is_Some (RehabPlan.id r))) groups)
       rows acc).*2
  = (length rows + list_sum acc.*2)%nat.
Proof.
  induction rows as [|r rows IH]; intros acc Hkeyed; [reflexivity|].
  apply Forall_cons in Hkeyed as [Hid Hkeyed]. cbn [fold_left].
  rewrite (IH _ Hkeyed), group_step_sum, (bool_decide_eq_true_2 _ Hid).
  simpl. lia.
Qed.

Lemma procedures_sum rows :
  keyed rows -> sum_counts (dict (group_count rows)) = length rows.
Proof.
  intros Hkeyed.
  destruct (group_fold_assoc rows [] Hkeyed) as [Hnd _]; [constructor|].
  unfold dict. rewrite sum_counts_fold.
  - unfold group_count. rewrite (group_fold_sum rows [] Hkeyed).
    unfold sum_counts. rewrite map_fold_empty. simpl. lia.
  - exact Hnd.
  - intros k _. apply lookup_empty.
Qed.

End Counts.

(** X17.  The counts of [procedures] add up to [total_plans], which is
    the number of plans [get_all_plans] returns. *)
Theorem procedures_add_up env w :
  select_fault env = None ->
  keyed (table w) ->
  exists st plans,
    get_stats env w = (Return st, w) /\
    get_all_plans env w = (Return plans, w) /\
    total_plans st = length plans /\
    sum_counts (procedures st) = total_plans st.
Proof.
  intros Hselect Hkeyed. rewrite get_stats_run, get_all_plans_run, Hselect.
  do 2 eexists. split; [reflexivity|]. split; [reflexivity|].
  split; [reflexivity|]. now apply procedures_sum.
Qed.

(** ** What the table holds *)










(** ** The text [json.dumps] writes *)

Section Encoder.

Import Json.

Lemma printable_hex_digit n : printable (hex_digit n) = true.
Proof.
  destruct n as [|p]; [reflexivity|].
  do 4 (try destruct p as [p|p|]); reflexivity.
Qed.

Lemma printable_hex4 n : forallb printable (hex4 n) = true.
Proof. unfold hex4. cbn [forallb]. now rewrite !printable_hex_digit. Qed.

Lemma printable_escape_char n : forallb printable (escape_char n) = true.
Proof.
  unfold escape_char.
  repeat match goal with
         | |- forallb _ (if ?b then _ else _) = _ => destruct b eqn:?
         end; try reflexivity.
  - cbn [forallb]. rewrite andb_true_r. unfold printable.
    match goal with H : (_ && _)%bool = true |- _ =>
      apply andb_true_iff in H as [Hlo Hhi] end.
    apply N.leb_le in Hlo, Hhi.
    rewrite N_ascii_embedding by lia.
    apply andb_true_iff. split; now apply N.leb_le.
  - cbn [forallb]. now rewrite printable_hex4.
  - cbv zeta. cbn [forallb]. rewrite forallb_app. cbn [forallb].
    now rewrite !printable_hex4.
Qed.

Lemma printable_escape_chars s : forallb printable (escape_chars s) = true.
Proof.
  induction s as [|c s IH]; [reflexivity|].
  cbn [escape_chars]. now rewrite forallb_app, printable_escape_char, IH.
Qed.

Lemma printable_basestring s :
  forallb printable (encode_basestring_ascii s) = true.
Proof.
  unfold encode_basestring_ascii. cbn [forallb].
  now rewrite forallb_app, printable_escape_chars.
Qed.

Lemma printable_uint_digits d : forallb printable (uint_digits d) = true.
Proof. induction d; cbn [uint_digits forallb]; try rewrite IHd; reflexivity. Qed.

Lemma printable_int_repr n : forallb printable (int_repr n) = true.
Proof.
  unfold int_repr. destruct (Z.to_int n); cbn [forallb];
    now rewrite printable_uint_digits.
Qed.

Lemma printable_join_comma ts :
  forallb (forallb printable) ts = true ->
  forallb printable (join_comma ts) = true.
Proof.
  induction ts as [|t ts IH]; [reflexivity|].
  cbn [forallb]. rewrite andb_true_iff. intros [Ht Hts].
  rewrite join_comma_cons. destruct ts as [|t' ts']; [exact Ht|].
  rewrite forallb_app, Ht. cbn [forallb]. now rewrite IH.
Qed.

Lemma encode_PyTuple xs : encode (PyTuple xs) = encode (PyList xs).
Proof. reflexivity. Qed.

Lemma printable_encode v : forall t,
  encode v = Return t -> forallb printable t = true.
Proof.
  induction v as [|b|n|s|xs IH|xs IH|items IH|b] using PyVal_nested_ind;
    intros t Henc.
  - injection Henc as <-. reflexivity.
  - destruct b; injection Henc as <-; reflexivity.
  - injection Henc as <-. apply printable_int_repr.
  - injection Henc as <-. apply printable_basestring.
  - rewrite encode_PyList in Henc.
    destruct (encode_all xs) as [ts|] eqn:Exs; [|discriminate].
    injection Henc as <-. cbn [forallb]. rewrite forallb_app, andb_true_r.
    apply printable_join_comma. clear -IH Exs. revert ts Exs.
    induction xs as [|x xs IHxs]; intros ts Exs.
    + injection Exs as <-. reflexivity.
    + cbn [encode_all] in Exs.
      destruct (encode x) as [t|] eqn:Ex; [|discriminate].
      destruct (encode_all xs) as [ts'|]; [|discriminate].
      injection Exs as <-. apply List.Forall_cons_iff in IH as [IHx IH].
      cbn [forallb]. now rewrite (IHx t Ex), (IHxs IH ts' eq_refl).
  - rewrite encode_PyTuple, encode_PyList in Henc.
    destruct (encode_all xs) as [ts|] eqn:Exs; [|discriminate].
    injection Henc as <-. cbn [forallb]. rewrite forallb_app, andb_true_r.
    apply printable_join_comma. clear -IH Exs. revert ts Exs.
    induction xs as [|x xs IHxs]; intros ts Exs.
    + injection Exs as <-. reflexivity.
    + cbn [encode_all] in Exs.
      destruct (encode x) as [t|] eqn:Ex; [|discriminate].
      destruct (encode_all xs) as [ts'|]; [|discriminate].
      injection Exs as <-. apply List.Forall_cons_iff in IH as [IHx IH].
      cbn [forallb]. now rewrite (IHx t Ex), (IHxs IH ts' eq_refl).
  - rewrite encode_PyDict in Henc.
    destruct (encode_pairs items) as [ts|] eqn:Eitems; [|discriminate].
    injection Henc as <-. cbn [forallb]. rewrite forallb_app, andb_true_r.
    apply printable_join_comma. clear -IH Eitems. revert ts Eitems.
    induction items as [|[k v] items IHitems]; intros ts Eitems.
    + injection Eitems as <-. reflexivity.
    + cbn [encode_pairs] in Eitems.
      destruct (encode_key k) as [ks|]; [|discriminate].
      destruct (encode v) as [t|] eqn:Ev; [|discriminate].
      destruct (encode_pairs items) as [ts'|]; [|discriminate].
      injection Eitems as <-. apply List.Forall_cons_iff in IH as [IHv IH].
      cbn [snd] in IHv. cbn [forallb].
      rewrite !forallb_app, printable_escape_chars. cbn [forallb].
      rewrite (IHv t Ev), (IHitems IH ts' eq_refl). reflexivity.
  - discriminate Henc.
Qed.


Lemma encode_normalize v : forall t,
  encode v = Return t -> encode (normalize v) = Return t.
Proof.
  assert (forall xs,
    List.Forall (fun v => forall t, encode v = Return t ->
                                    encode (normalize v) = Return t) xs ->
    forall ts, encode_all xs = Return ts ->
               encode_all (map normalize xs) = Return ts) as Hall.
  { induction xs as [|x xs IHxs]; intros IH ts Exs; [exact Exs|].
    apply List.Forall_cons_iff in IH as [IHx IH].
    cbn [encode_all map] in *.
    destruct (encode x) as [t|] eqn:Ex; [|discriminate].
    destruct (encode_all xs) as [ts'|] eqn:Exs'; [|discriminate].
    now rewrite (IHx t eq_refl), (IHxs IH ts' eq_refl). }
  induction v as [|b|n|s|xs IH|xs IH|items IH|b] using PyVal_nested_ind;
    intros t Henc; try exact Henc.
  - rewrite encode_PyList in Henc. cbn [normalize]. rewrite encode_PyList.
    destruct (encode_all xs) as [ts|] eqn:Exs; [|discriminate].
    now rewrite (Hall xs IH ts Exs).
  - rewrite encode_PyTuple, encode_PyList in Henc. cbn [normalize].
    rewrite encode_PyList.
    destruct (encode_all xs) as [ts|] eqn:Exs; [|discriminate].
    now rewrite (Hall xs IH ts Exs).
  - rewrite encode_PyDict in Henc.
    change (normalize (PyDict items))
      with (PyDict (map (fun kv => (key_str (fst kv), normalize (snd kv))) items)).
    rewrite encode_PyDict.
    destruct (encode_pairs items) as [ts|] eqn:Eitems; [|discriminate].
    assert (encode_pairs
              (map (fun kv => (key_str (fst kv), normalize (snd kv))) items)
            = Return ts) as Hmap; [|rewrite Hmap; exact Henc].
    clear Henc Hall. revert ts Eitems.
    induction items as [|[k v] items IHitems]; intros ts Eitems; [exact Eitems|].
    apply List.Forall_cons_iff in IH as [IHv IH]. cbn [snd] in IHv.
    cbn [encode_pairs map fst snd] in *.
    destruct (encode_key k) as [ks|] eqn:Ek; [|discriminate].
    assert (key_str k = PyStr ks) as -> by (unfold key_str; now rewrite Ek).
    cbn [encode_key].
    destruct (encode v) as [t'|] eqn:Ev; [|discriminate].
    destruct (encode_pairs items) as [ts'|] eqn:Eitems'; [|discriminate].
    now rewrite (IHv t' eq_refl), (IHitems IH ts' eq_refl).
Qed.

Lemma normalize_shaped v : json_shaped v = true -> normalize v = v.
Proof.
  induction v as [|b|n|s|xs IH|xs IH|items IH|b] using PyVal_nested_ind;
    intros Hshaped; try reflexivity; try discriminate Hshaped.
  - cbn [normalize json_shaped] in *. f_equal.
    induction xs as [|x xs IHxs]; [reflexivity|].
    apply List.Forall_cons_iff in IH as [IHx IH].
    cbn [forallb] in Hshaped. apply andb_true_iff in Hshaped as [Hx Hxs].
    cbn [map]. now rewrite (IHx Hx), (IHxs IH Hxs).
  - cbn [normalize json_shaped] in *. f_equal.
    apply andb_true_iff in Hshaped as [Hshaped _].
    induction items as [|[k v] items IHitems]; [reflexivity|].
    apply List.Forall_cons_iff in IH as [IHv IH]. cbn [snd] in IHv.
    cbn [forallb fst snd] in Hshaped.
    apply andb_true_iff in Hshaped as [Hkv Hitems].
    apply andb_true_iff in Hkv as [Hk Hv].
    cbn [map fst snd]. rewrite (IHv Hv), (IHitems IH Hitems).
    destruct k; try discriminate Hk. reflexivity.
Qed.

End Encoder.

(** X20.  The text [json.dumps] writes, and so every [plan_json] that
    [save_plan] stores, is made of the characters from space to tilde,
    whatever the strings of the plan hold. *)
Theorem dumps_printable_ascii plan text :
  Json.dumps plan = Return text ->
  forallb printable (list_ascii_of_string text) = true.
Proof.
  unfold Json.dumps. destruct (Json.encode plan) as [t|] eqn:Henc; [|discriminate].
  intros [= <-]. rewrite list_ascii_of_string_of_list_ascii.
  now apply printable_encode with plan.
Qed.


(** X22.  What is read back from the text of a plan is the plan with
    its tuples turned into lists and its dictionary keys turned into the
    strings the encoder writes for them, when the strings and keys of
    that value are ones the decoder reads back; a plan of JSON shape is
    that value itself. *)
Theorem loads_dumps_normalizes plan text :
  Json.dumps plan = Return text ->
  Json.json_shaped (normalize plan) = true ->
  Json.loads text = Some (normalize plan) /\
  (Json.json_shaped plan = true -> normalize plan = plan).
Proof.
  intros Hdumps Hshaped. split; [|apply normalize_shaped].
  destruct (loads_dumps _ Hshaped) as (s & Hs & Hloads).
  unfold Json.dumps in Hdumps, Hs.
  destruct (Json.encode plan) as [t|] eqn:Henc; [|discriminate].
  rewrite (encode_normalize _ _ Henc) in Hs.
  injection Hdumps as <-. injection Hs as <-. exact Hloads.
Qed.

(** X23.  Two plans of JSON shape with the same text are the same plan:
    [plan_json] tells the plans apart. *)
Theorem dumps_injective plan plan' text :
  Json.json_shaped plan = true ->
  Json.json_shaped plan' = true ->
  Json.dumps plan = Return text ->
  Json.dumps plan' = Return text ->
  plan = plan'.
Proof.
  intros Hshaped Hshaped' Hdumps Hdumps'.
  destruct (loads_dumps _ Hshaped) as (s & Hs & Hloads).
  destruct (loads_dumps _ Hshaped') as (s' & Hs' & Hloads').
  rewrite Hdumps in Hs. rewrite Hdumps' in Hs'.
  injection Hs as <-. injection Hs' as <-.
  rewrite Hloads in Hloads'. now injection Hloads'.
Qed.

(** ** The numbers [avg] reads the ages as *)

Section Ages.

Import Aggregate.

Local Open Scope Qc_scope.

Lemma atof_zero (e : Z) : Q2Qc (inject_Z (1 * 0)) * pow10 (e + 0) = Q2Qc 0.
Proof. change (Q2Qc (inject_Z (1 * 0))) with (Q2Qc 0). ring. Qed.


(** X24.  A text that starts with no number reads as 0: an age whose
    first character is no space, sign, digit or point, like ["N/A"] or
    ["unknown"], counts in [average_age] as the age 0. *)
Theorem sqlite3AtoF_no_number c t :
  opens_number c = false -> sqlite3AtoF (String c t) = Q2Qc 0.
Proof.
  intros Hc.
  destruct c as [[] [] [] [] [] [] [] []];
    try (vm_compute in Hc; discriminate Hc);
    unfold sqlite3AtoF;
    cbv -[Qcmult pow10 Q2Qc Z.mul Z.add inject_Z];
    apply atof_zero.
Qed.





End Ages.

(** ** A save and the average age *)

Section AverageAfterSave.

Import Aggregate.

Local Open Scope Qc_scope.





End AverageAfterSave.


(** ** The further properties at concrete calls *)

Lemma save_plan_refresh_failure_witness :
  Json.dumps plan_ex = Return text_ex /\
  insert_outcome reads_down (constructed info_ex "ACL" 12 text_ex None None) fresh
    = Return tt /\
  select_fault reads_down = Some OperationalError /\
  exists w' i before after,
    save_plan reads_down info_ex "ACL" 12 plan_ex None None fresh
      = (Return None, w') /\
    stdout w' = stdout fresh ++ [MsgSaveFailed OperationalError] /\
    table fresh = before ++ after /\
    table w' = before
               ++ inserted reads_down i
                    (constructed info_ex "ACL" 12 text_ex None None) :: after.
Proof.
  split; [vm_compute; reflexivity|]. split; [vm_compute; reflexivity|].
  split; [reflexivity|].
  apply (save_plan_refresh_failure reads_down info_ex "ACL" 12 plan_ex None None
           fresh text_ex OperationalError); vm_compute; reflexivity.
Defined.

Lemma save_plan_days_out_of_range_witness :
  Json.dumps plan_ex = Return text_ex /\
  ~ (Sqlite.MIN_INT64 <= 9223372036854775808 <= Sqlite.MAX_ROWID) /\
  save_plan (calm 1000) info_ex "ACL" 9223372036854775808 plan_ex None None fresh
    = (Return None, failed fresh OverflowError).
Proof.
  split; [vm_compute; reflexivity|].
  split; [unfold Sqlite.MIN_INT64, Sqlite.MAX_ROWID; lia|].
  apply (save_plan_days_out_of_range (calm 1000) info_ex "ACL"
           9223372036854775808 plan_ex None None fresh text_ex).
  - vm_compute; reflexivity.
  - unfold Sqlite.MIN_INT64, Sqlite.MAX_ROWID; lia.
Defined.

Lemma save_then_get_plan_by_id_witness :
  let w' := (save_plan (calm 1000) ∅ "ACL" 12 plan_ex None (Some ""%string) fresh).2 in
  save_plan (calm 1000) ∅ "ACL" 12 plan_ex None (Some ""%string) fresh
    = (Return (Some 1), w') /\
  select_fault (calm 5000) = None /\
  exists text,
    Json.dumps plan_ex = Return text /\
    get_plan_by_id (calm 5000) 1 w' =
    (Return
       (Some (RehabPlan.mk (Some 1) (Some "N/A"%string) (Some "N/A"%string)
                (Some ""%string) (Some ""%string) (Some ""%string)
                (Some "ACL"%string) (Some 12) (Some text) (Some 1000) None)),
     w').
Proof.
  intros w'. split; [vm_compute; reflexivity|]. split; [reflexivity|].
  destruct (save_then_get_plan_by_id (calm 1000) ∅ "ACL" 12 plan_ex None
              (Some ""%string) fresh 1 w' (calm 5000))
    as (text & Hdumps & Hget); [vm_compute; reflexivity|reflexivity|].
  exists text. split; [exact Hdumps|exact Hget].
Defined.

Lemma saved_plan_reads_back_witness :
  let w' := (save_plan (calm 1000) info_ex "ACL" 12 plan_ex None None fresh).2 in
  save_plan (calm 1000) info_ex "ACL" 12 plan_ex None None fresh
    = (Return (Some 1), w') /\
  select_fault (calm 5000) = None /\
  Json.json_shaped plan_ex = true /\
  exists row text,
    get_plan_by_id (calm 5000) 1 w' = (Return (Some row), w') /\
    RehabPlan.plan_json row = Some text /\
    Json.loads text = Some plan_ex.
Proof.
  intros w'. split; [vm_compute; reflexivity|]. split; [reflexivity|].
  split; [reflexivity|].
  apply (saved_plan_reads_back (calm 1000) info_ex "ACL" 12 plan_ex None None
           fresh 1 w' (calm 5000)); vm_compute; reflexivity.
Defined.

Lemma save_then_get_stats_witness :
  let w' := (save_plan (calm 1000) info_ex "ACL" 12 plan_ex None None fresh).2 in
  save_plan (calm 1000) info_ex "ACL" 12 plan_ex None None fresh
    = (Return (Some 1), w') /\
  keyed (table fresh) /\
  select_fault (calm 5000) = None /\
  exists st st',
    get_stats (calm 5000) fresh = (Return st, fresh) /\
    get_stats (calm 5000) w' = (Return st', w') /\
    total_plans st' = S (total_plans st) /\
    procedures st' !! Some "ACL"%string
      = Some (S (default 0%nat (procedures st !! Some "ACL"%string))) /\
    forall key, key <> Some "ACL"%string ->
      procedures st' !! key = procedures st !! key.
Proof.
  intros w'. split; [vm_compute; reflexivity|]. split; [constructor|].
  split; [reflexivity|].
  apply (save_then_get_stats (calm 1000) info_ex "ACL" 12 plan_ex None None
           fresh 1 w' (calm 5000));
    [vm_compute; reflexivity|constructor|reflexivity].
Defined.


Lemma reads_raise_storage_errors_witness :
  select_fault reads_down = Some OperationalError /\
  Sqlite.fits_int64 2 = true /\
  get_all_plans reads_down store_AAB = (Raise OperationalError, store_AAB) /\
  get_plan_by_id reads_down 2 store_AAB = (Raise OperationalError, store_AAB) /\
  get_stats reads_down store_AAB = (Raise OperationalError, store_AAB).
Proof.
  split; [reflexivity|]. split; [reflexivity|].
  apply (reads_raise_storage_errors reads_down OperationalError 2 store_AAB);
    reflexivity.
Defined.

Lemma ids_stay_unique_witness :
  unique_ids (table fresh) /\
  unique_ids (table (run_calls fresh history_ex)).
Proof.
  assert (unique_ids (table fresh)) as Hfresh by (split; constructor).
  split; [exact Hfresh|].
  exact (ids_stay_unique history_ex fresh Hfresh).
Defined.

Lemma get_plan_by_id_exact_witness :
  select_fault (calm 5000) = None /\
  NoDup (Sqlite.rowids (table store_AAB)) /\
  In row_ex (table store_AAB) /\
  RehabPlan.id row_ex = Some 2 /\
  get_all_plans (calm 5000) store_AAB = (Return (table store_AAB), store_AAB) /\
  get_plan_by_id (calm 5000) 2 store_AAB = (Return (Some row_ex), store_AAB).
Proof.
  assert (NoDup (Sqlite.rowids (table store_AAB))) as Hnd.
  { replace (Sqlite.rowids (table store_AAB)) with [1; 2; 3]
      by (vm_compute; reflexivity).
    apply (bool_decide_unpack _). vm_compute. exact I. }
  assert (In row_ex (table store_AAB)) as Hin.
  { vm_compute. right. left. reflexivity. }
  split; [reflexivity|]. split; [exact Hnd|]. split; [exact Hin|].
  split; [reflexivity|].
  exact (get_plan_by_id_exact (calm 5000) 2 store_AAB row_ex eq_refl Hnd Hin eq_refl).
Defined.

Lemma procedures_add_up_witness :
  select_fault (calm 5000) = None /\
  keyed (table store_AAB) /\
  exists st plans,
    get_stats (calm 5000) store_AAB = (Return st, store_AAB) /\
    get_all_plans (calm 5000) store_AAB = (Return plans, store_AAB) /\
    total_plans st = length plans /\
    sum_counts (procedures st) = total_plans st.
Proof.
  assert (keyed (table store_AAB)) as Hkeyed.
  { apply keyed_check. vm_compute. reflexivity. }
  split; [reflexivity|]. split; [exact Hkeyed|].
  exact (procedures_add_up (calm 5000) store_AAB eq_refl Hkeyed).
Defined.


Lemma dumps_printable_ascii_witness :
  Json.dumps plan_mixed
    = Return (Json.dq "{'1': [3, '\u00e9\ud83d\ude00'], 'done': false}") /\
  forallb printable
    (list_ascii_of_string
       (Json.dq "{'1': [3, '\u00e9\ud83d\ude00'], 'done': false}")) = true.
Proof.
  split; [vm_compute; reflexivity|].
  apply (dumps_printable_ascii plan_mixed). vm_compute; reflexivity.
Defined.

Lemma loads_dumps_normalizes_witness :
  Json.dumps plan_mixed
    = Return (Json.dq "{'1': [3, '\u00e9\ud83d\ude00'], 'done': false}") /\
  Json.json_shaped (normalize plan_mixed) = true /\
  Json.loads (Json.dq "{'1': [3, '\u00e9\ud83d\ude00'], 'done': false}")
    = Some (Json.PyDict
              [(Json.PyStr (Json.ustr "1"),
                Json.PyList [Json.PyInt 3; Json.PyStr [233; 128512]%N]);
               (Json.PyStr (Json.ustr "done"), Json.PyBool false)]) /\
  (Json.json_shaped plan_mixed = true -> normalize plan_mixed = plan_mixed).
Proof.
  split; [vm_compute; reflexivity|]. split; [vm_compute; reflexivity|].
  apply (loads_dumps_normalizes plan_mixed); vm_compute; reflexivity.
Defined.

Lemma dumps_injective_witness :
  Json.json_shaped plan_ex = true /\
  Json.dumps plan_ex = Return text_ex /\
  plan_ex = plan_ex.
Proof.
  split; [reflexivity|]. split; [vm_compute; reflexivity|].
  apply (dumps_injective plan_ex plan_ex text_ex); vm_compute; reflexivity.
Defined.

Lemma sqlite3AtoF_no_number_witness :
  opens_number "N" = false /\ Aggregate.sqlite3AtoF "N/A" = Q2Qc 0.
Proof.
  split; [reflexivity|].
  apply (sqlite3AtoF_no_number "N" "/A"). reflexivity.
Defined.


Lemma saved_plan_stays_witness :
  let w' := (save_plan (calm 500) info_ex "Hip" 7 plan_ex None None fresh).2 in
  save_plan (calm 500) info_ex "Hip" 7 plan_ex None None fresh
    = (Return (Some 1), w') /\
  unique_ids (table fresh) /\
  select_fault (calm 5000) = None /\
  exists row,
    get_plan_by_id (calm 5000) 1 w' = (Return (Some row), w') /\
    get_plan_by_id (calm 5000) 1 (run_calls w' history_ex)
      = (Return (Some row), run_calls w' history_ex).
Proof.
  intros w'. assert (unique_ids (table fresh)) as Hfresh by (split; constructor).
  split; [vm_compute; reflexivity|]. split; [exact Hfresh|].
  split; [reflexivity|].
  apply (saved_plan_stays (calm 500) info_ex "Hip" 7 plan_ex None None fresh 1 w'
           history_ex (calm 5000)); [vm_compute; reflexivity|exact Hfresh|reflexivity].
Defined.

Lemma none_means_nothing_stored_witness :
  let w' := (save_plan storage_down info_ex "ACL" 12 plan_ex None None store_AAB).2 in
  save_plan storage_down info_ex "ACL" 12 plan_ex None None store_AAB
    = (Return None, w') /\
  select_fault storage_down = None /\
  table w' = table store_AAB /\
  (forall c, (save_call c w').1 = (save_call c store_AAB).1) /\
  (forall env' plan_id,
     (get_all_plans env' w').1 = (get_all_plans env' store_AAB).1 /\
     (get_plan_by_id env' plan_id w').1
       = (get_plan_by_id env' plan_id store_AAB).1 /\
     (get_stats env' w').1 = (get_stats env' store_AAB).1).
Proof.
  intros w'. split; [vm_compute; reflexivity|]. split; [reflexivity|].
  apply (none_means_nothing_stored storage_down info_ex "ACL" 12 plan_ex None None
           store_AAB w'); [vm_compute; reflexivity|reflexivity].
Defined.
